(** * Bingo session layer: a shallow embedding of the game model, the REST
      routes and the two socket gateways, with the properties of the
      session state machine proved over it.

    Layout, following the repository:
    - [Model]    : backend/models/Game.js (schema and instance methods);
    - [Routes]   : the REST game routes (create, join, call-number,
                   decline, cancel) and [generateBingoBoard];
    - [Sockets]  : the invitation gateway ('respond-to-invitation',
                   'call-number');
    - [Realtime] : the room gateway ('callNumber', 'checkWin' and the
                   win-pattern helpers).

    Conventions.  ObjectIds are natural numbers (they are only ever
    compared through [toString]).  JavaScript numbers that reach the
    code from a JSON payload are integers of [Z]; dates are milliseconds
    in [Z]; [new Date()] is an explicit argument [now].  A Mongo
    collection is the list of its documents, in natural order. *)

From Stdlib Require Import ZArith String Ascii List Bool Arith Lia Permutation.
Import ListNotations.
Open Scope Z_scope.

(** ** Shared JavaScript values *)

Definition ObjectId := nat.

(** A board cell is [Mixed] in the schema: a number, the string ['FREE'],
    or [undefined] when an index falls outside an array. *)
Inductive Cell : Type :=
| Num (n : Z)
| Free
| Undefined.

Definition Board := list (list Cell).

Definition is_FREE (c : Cell) : bool :=
  match c with Free => true | _ => false end.

(** [calledNumbers.includes(n)] on an array of numbers. *)
Definition includes (calledNumbers : list Z) (n : Z) : bool :=
  existsb (Z.eqb n) calledNumbers.

(** [calledNumbers.includes(cell)]: strict equality never relates a number
    with ['FREE'] or [undefined]. *)
Definition includesCell (calledNumbers : list Z) (c : Cell) : bool :=
  match c with
  | Num n => includes calledNumbers n
  | Free | Undefined => false
  end.

(** [row[j]]: reading past the end of an array gives [undefined]. *)
Definition at_ (row : list Cell) (j : nat) : Cell := nth j row Undefined.

(** A small error monad for code that can throw. *)
Definition bind {A B : Type} (m : option A) (k : A -> option B) : option B :=
  match m with
  | Some a => k a
  | None => None
  end.

Notation "x <- m ;; k" := (bind m (fun x => k))
  (at level 61, m at next level, right associativity).

(** [board[i]]: [None] stands for the [TypeError] raised when a property
    of the missing row is read next. *)
Definition rowOf (board : Board) (i : nat) : option (list Cell) :=
  nth_error board i.

(** The indices of the [for (let i = 0; i < 5; i++)] loops. *)
Definition fiveIndices : list nat := [0; 1; 2; 3; 4]%nat.

(** ** backend/models/Game.js *)
Module Model.

Inductive Status : Type := pending | active | completed | cancelled.
Inductive GameType : Type := solo | multiplayer.
Inductive Turn : Type := creatorTurn | opponentTurn.

Definition Status_eqb (a b : Status) : bool :=
  match a, b with
  | pending, pending | active, active
  | completed, completed | cancelled, cancelled => true
  | _, _ => false
  end.

Record GameData : Type := mkGameData {
  creatorBoard : Board;
  opponentBoard : Board;
  calledNumbers : list Z;
  currentTurn : Turn;
  creatorCompletedLines : Z;
  opponentCompletedLines : Z;
  lastCalledNumber : option Z;
  lastCalledBy : option ObjectId
}.

Record Game : Type := mkGame {
  _id : nat;
  creator : ObjectId;
  opponent : ObjectId;
  status : Status;
  winner : option ObjectId;
  gameType : GameType;
  gameData : GameData;
  startedAt : option Z;
  completedAt : option Z;
  duration : option Z;
  requiredLines : Z;
  maxNumbers : Z;
  invitationAccepted : bool;
  invitationExpiresAt : Z
}.

Definition set_gameData (g : Game) (d : GameData) : Game :=
  mkGame (_id g) (creator g) (opponent g) (status g) (winner g) (gameType g)
         d (startedAt g) (completedAt g) (duration g) (requiredLines g)
         (maxNumbers g) (invitationAccepted g) (invitationExpiresAt g).

Definition set_status (g : Game) (s : Status) : Game :=
  mkGame (_id g) (creator g) (opponent g) s (winner g) (gameType g)
         (gameData g) (startedAt g) (completedAt g) (duration g)
         (requiredLines g) (maxNumbers g) (invitationAccepted g)
         (invitationExpiresAt g).

(** The schema default of [invitationExpiresAt]: 24 hours after creation. *)
Definition invitationWindow : Z := 24 * 60 * 60 * 1000.

(** [isExpired] *)
Definition isExpired (now : Z) (g : Game) : bool :=
  Status_eqb (status g) pending && (invitationExpiresAt g <? now).

(** [canJoin] *)
Definition canJoin (now : Z) (g : Game) (userId : ObjectId) : bool :=
  Status_eqb (status g) pending &&
  negb (isExpired now g) &&
  (Nat.eqb (creator g) userId || Nat.eqb (opponent g) userId).

Definition Turn_eqb (a b : Turn) : bool :=
  match a, b with
  | creatorTurn, creatorTurn | opponentTurn, opponentTurn => true
  | _, _ => false
  end.

(** [isUserTurn] *)
Definition isUserTurn (g : Game) (userId : ObjectId) : bool :=
  if negb (Status_eqb (status g) active) then false
  else
    let isCreator := Nat.eqb (creator g) userId in
    let isOpponent := Nat.eqb (opponent g) userId in
    if isCreator && Turn_eqb (currentTurn (gameData g)) creatorTurn then true
    else if isOpponent && Turn_eqb (currentTurn (gameData g)) opponentTurn
         then true
         else false.

(** [getOpponent] *)
Definition getOpponent (g : Game) (userId : ObjectId) : ObjectId :=
  if Nat.eqb (creator g) userId then opponent g else creator g.

Definition flipTurn (t : Turn) : Turn :=
  match t with creatorTurn => opponentTurn | opponentTurn => creatorTurn end.

(** [callNumber]: the method mutates [this] and returns a boolean; here it
    returns the boolean together with the document after the call. *)
Definition callNumber (g : Game) (number : Z) (calledBy : ObjectId)
  : bool * Game :=
  let d := gameData g in
  if negb (includes (calledNumbers d) number) then
    (true,
     set_gameData g
       (mkGameData (creatorBoard d) (opponentBoard d)
                   (calledNumbers d ++ [number])
                   (flipTurn (currentTurn d))
                   (creatorCompletedLines d) (opponentCompletedLines d)
                   (Some number) (Some calledBy)))
  else (false, g).

(** The test applied to every cell by [checkWinCondition]:
    [num === 'FREE' || calledNumbers.includes(num)]. *)
Definition satisfied (called : list Z) (c : Cell) : bool :=
  is_FREE c || includesCell called c.

(** [board[i][j]] with the test applied; [None] when [board[i]] is missing. *)
Definition cellSatisfied (board : Board) (called : list Z) (i j : nat)
  : option bool :=
  r <- rowOf board i ;; Some (satisfied called (at_ r j)).

(** [a && b] over computations that can throw, left to right. *)
Definition andAlso (a b : option bool) : option bool :=
  x <- a ;; if x then b else Some false.

(** The row loop: [board[i].every(...)] for [i] in the given indices. *)
Fixpoint countRows (board : Board) (called : list Z) (idxs : list nat) (acc : Z)
  : option Z :=
  match idxs with
  | [] => Some acc
  | i :: rest =>
      r <- rowOf board i ;;
      countRows board called rest
                (if forallb (satisfied called) r then acc + 1 else acc)
  end.

(** The column loop: [board.every(row => ... row[j] ...)]. *)
Fixpoint countCols (board : Board) (called : list Z) (js : list nat) (acc : Z)
  : Z :=
  match js with
  | [] => acc
  | j :: rest =>
      countCols board called rest
                (if forallb (fun row => satisfied called (at_ row j)) board
                 then acc + 1 else acc)
  end.

Definition mainDiagonal (board : Board) (called : list Z) : option bool :=
  andAlso (cellSatisfied board called 0 0)
 (andAlso (cellSatisfied board called 1 1)
 (andAlso (cellSatisfied board called 2 2)
 (andAlso (cellSatisfied board called 3 3)
          (cellSatisfied board called 4 4)))).

Definition antiDiagonal (board : Board) (called : list Z) : option bool :=
  andAlso (cellSatisfied board called 0 4)
 (andAlso (cellSatisfied board called 1 3)
 (andAlso (cellSatisfied board called 2 2)
 (andAlso (cellSatisfied board called 3 1)
          (cellSatisfied board called 4 0)))).

(** The number of completed lines accumulated by [checkWinCondition]. *)
Definition completedLines (board : Board) (called : list Z) : option Z :=
  n1 <- countRows board called fiveIndices 0 ;;
  let n2 := countCols board called fiveIndices n1 in
  d1 <- mainDiagonal board called ;;
  let n3 := if d1 then n2 + 1 else n2 in
  d2 <- antiDiagonal board called ;;
  Some (if d2 then n3 + 1 else n3).

(** [checkWinCondition]: [completedLines >= this.requiredLines]. *)
Definition checkWinCondition (g : Game) (board : Board) (called : list Z)
  : option bool :=
  n <- completedLines board called ;; Some (requiredLines g <=? n).

(** [Math.round(ms / (1000 * 60))] on an integer number of milliseconds. *)
Definition roundMinutes (ms : Z) : Z := (ms + 30000) / 60000.

(** [endGame] *)
Definition endGame (now : Z) (g : Game) (winnerId : ObjectId) : Game :=
  mkGame (_id g) (creator g) (opponent g) completed (Some winnerId)
         (gameType g) (gameData g) (startedAt g) (Some now)
         (match startedAt g with
          | Some t0 => Some (roundMinutes (now - t0))
          | None => duration g
          end)
         (requiredLines g) (maxNumbers g) (invitationAccepted g)
         (invitationExpiresAt g).

(** The pre-save middleware. *)
Definition preSave (now : Z) (g : Game) : Game :=
  if isExpired now g && Status_eqb (status g) pending
  then set_status g cancelled
  else g.

(** *** The collection *)

Definition Store := list Game.

(** [Game.findById] *)
Definition findById (db : Store) (gameId : nat) : option Game :=
  find (fun d => Nat.eqb (_id d) gameId) db.

Definition nonTerminal (s : Status) : bool :=
  match s with pending | active => true | _ => false end.

(** The partial unique index on [(creator, opponent, status)], restricted
    to documents whose status is pending or active. *)
Definition duplicateKey (db : Store) (g : Game) : bool :=
  nonTerminal (status g) &&
  existsb (fun d => negb (Nat.eqb (_id d) (_id g)) &&
                    Nat.eqb (creator d) (creator g) &&
                    Nat.eqb (opponent d) (opponent g) &&
                    Status_eqb (status d) (status g)) db.

Fixpoint upsert (db : Store) (g : Game) : Store :=
  match db with
  | [] => [g]
  | d :: rest => if Nat.eqb (_id d) (_id g) then g :: rest
                 else d :: upsert rest g
  end.

(** [game.save()]: runs the pre-save middleware, then writes the document.
    [enforce] tells whether the store has built the unique index; [None] is
    the duplicate-key error.  The first component is the in-memory
    document after the middleware ran. *)
Definition save (enforce : bool) (now : Z) (db : Store) (g : Game)
  : option (Game * Store) :=
  let g' := preSave now g in
  if enforce && duplicateKey db g' then None
  else Some (g', upsert db g').

End Model.

(** A [number] field of a request payload as the model carries it: a JSON
    number, taken as an integer, or absent.  Fractional numbers and JSON
    values of other types (strings, booleans, null) are outside the model;
    what is stated of a payload below is stated of these two cases. *)
Inductive Payload : Type :=
| PNumber (n : Z)
| PUndefined.

(** ** The REST game routes *)
Module Routes.
Import Model.

(** *** generateBingoBoard *)

(** One result of [Math.random()]: the rational
    [numer / (numer + slack + 1)], which lies in [0, 1). *)
Record Draw : Type := mkDraw { numer : nat; slack : nat }.

(** [Math.floor(Math.random() * (i + 1))] *)
Definition randomIndex (d : Draw) (i : nat) : nat :=
  ((numer d * (i + 1)) / (numer d + slack d + 1))%nat.

(** [a[i] = v] on an index inside the array. *)
Fixpoint setNth (a : list Z) (i : nat) (v : Z) : list Z :=
  match a, i with
  | [], _ => []
  | _ :: rest, O => v :: rest
  | x :: rest, S i' => x :: setNth rest i' v
  end.

(** [[a[i], a[j]] = [a[j], a[i]]] *)
Definition swap (a : list Z) (i j : nat) : list Z :=
  let ai := nth i a 0 in
  let aj := nth j a 0 in
  setNth (setNth a i aj) j ai.

(** The first loop: the numbers 1 to 25 without 13. *)
Definition allNumbers : list Z :=
  filter (fun i => negb (i =? 13)) (map Z.of_nat (seq 1 25)).

(** The shuffle loop, [i] counting down to 1; [k] counts the calls of
    [Math.random] made so far. *)
Fixpoint shuffle (rnd : nat -> Draw) (k : nat) (i : nat) (a : list Z)
  : list Z :=
  match i with
  | O => a
  | S i' => shuffle rnd (S k) i' (swap a i (randomIndex (rnd k) i))
  end.

(** [allNumbers[numberIndex]] *)
Definition numberAt (a : list Z) (numberIndex : nat) : Cell :=
  match nth_error a numberIndex with
  | Some n => Num n
  | None => Undefined
  end.

(** The inner loop over [j], threading [numberIndex]. *)
Fixpoint buildRow (a : list Z) (i : nat) (js : list nat) (numberIndex : nat)
  : list Cell * nat :=
  match js with
  | [] => ([], numberIndex)
  | j :: rest =>
      if Nat.eqb i 2 && Nat.eqb j 2 then
        let (row, n') := buildRow a i rest numberIndex in (Free :: row, n')
      else
        let (row, n') := buildRow a i rest (S numberIndex) in
        (numberAt a numberIndex :: row, n')
  end.

(** The outer loop over [i]. *)
Fixpoint buildBoard (a : list Z) (idxs : list nat) (numberIndex : nat)
  : Board :=
  match idxs with
  | [] => []
  | i :: rest =>
      let (row, n') := buildRow a i fiveIndices numberIndex in
      row :: buildBoard a rest n'
  end.

Definition generateBingoBoard (rnd : nat -> Draw) : Board :=
  let shuffled := shuffle rnd 0 (List.length allNumbers - 1) allNumbers in
  buildBoard shuffled fiveIndices 0.

(** *** Replies *)

Inductive Reply : Type :=
| Ok (code : nat) (message : string) (game : Game)
| Err (code : nat) (error : string).

Definition internalError : Reply := Err 500 "Internal server error".

(** *** POST / *)

(** The request body: [opponentId] absent or given, [gameType] absent (the
    default applies) or one of the schema's two values. *)
Record CreateBody : Type := mkCreateBody {
  opponentId : option ObjectId;
  gameTypeField : option GameType
}.

Definition GameType_eqb (a b : GameType) : bool :=
  match a, b with
  | solo, solo | multiplayer, multiplayer => true
  | _, _ => false
  end.

(** The [Game.findOne] query of the create route. *)
Definition existingGame (db : Store) (me other : ObjectId) : option Game :=
  find (fun d =>
          ((Nat.eqb (creator d) me && Nat.eqb (opponent d) other) ||
           (Nat.eqb (creator d) other && Nat.eqb (opponent d) me)) &&
          nonTerminal (status d)) db.

(** A fresh [_id] for [new Game(...)]. *)
Definition freshId (db : Store) : nat :=
  S (fold_right Nat.max O (map _id db)).

(** [new Game(gameData)] with the schema defaults. *)
Definition newGame (now : Z) (id : nat) (me other : ObjectId)
  (gt : GameType) (sharedBoard : Board) : Game :=
  mkGame id me other pending None gt
         (mkGameData sharedBoard sharedBoard [] creatorTurn 0 0 None None)
         None None None 5 25 false (now + invitationWindow).

Definition createGame (enforce : bool) (rnd : nat -> Draw) (now : Z)
  (users : list ObjectId) (db : Store) (me : ObjectId) (body : CreateBody)
  : Reply * Store :=
  let gt := match gameTypeField body with Some t => t | None => multiplayer end in
  let proceed :=
    let sharedBoard := generateBingoBoard rnd in
    let other := match opponentId body with Some o => o | None => me end in
    match save enforce now db (newGame now (freshId db) me other gt sharedBoard) with
    | Some (g, db') => (Ok 201 "Game created successfully" g, db')
    | None => (internalError, db)
    end in
  match opponentId body with
  | None =>
      if GameType_eqb gt multiplayer
      then (Err 400 "Opponent ID is required for multiplayer games", db)
      else proceed
  | Some o =>
      if negb (existsb (Nat.eqb o) users)
      then (Err 404 "Opponent not found", db)
      else match existingGame db me o with
           | Some _ =>
               (Err 400 "There is already an active game with this opponent", db)
           | None => proceed
           end
  end.

(** *** POST /:gameId/join *)

Definition activate (now : Z) (g : Game) : Game :=
  mkGame (_id g) (creator g) (opponent g) active (winner g) (gameType g)
         (gameData g) (Some now) (completedAt g) (duration g)
         (requiredLines g) (maxNumbers g) true (invitationExpiresAt g).

Definition joinGame (enforce : bool) (now : Z) (db : Store) (me : ObjectId)
  (gameId : nat) : Reply * Store :=
  match findById db gameId with
  | None => (Err 404 "Game not found", db)
  | Some game =>
      if negb (canJoin now game me)
      then (Err 400 "Cannot join this game", db)
      else match save enforce now db (activate now game) with
           | Some (g, db') => (Ok 200 "Game started successfully" g, db')
           | None => (internalError, db)
           end
  end.

(** *** POST /:gameId/call-number *)

(** [typeof number !== 'number' || number < 1 || number > 25] *)
Definition invalidNumber (p : Payload) : bool :=
  match p with
  | PUndefined => true
  | PNumber n => (n <? 1) || (25 <? n)
  end.

Definition payloadNumber (p : Payload) : Z :=
  match p with PNumber n => n | PUndefined => 0 end.

Definition set_completedLines (g : Game) (c o : Z) : Game :=
  let d := gameData g in
  set_gameData g
    (mkGameData (creatorBoard d) (opponentBoard d) (calledNumbers d)
                (currentTurn d) c o (lastCalledNumber d) (lastCalledBy d)).

(** The winner chosen after a successful call. *)
Definition pickWinner (g : Game) (creatorLines opponentLines : Z)
  : option ObjectId :=
  if 5 <=? creatorLines then Some (creator g)
  else if 5 <=? opponentLines then Some (opponent g)
  else None.

(** The part of the route after the number was recorded: both boards are
    evaluated, the winner is chosen and the game is ended.  [None] is an
    exception thrown by the evaluation.  The statistics and score
    documents written for a finished game live in other collections and
    are not part of this model. *)
Definition evaluate (now : Z) (g : Game) : option (Game * option ObjectId) :=
  cw <- checkWinCondition g (creatorBoard (gameData g))
                          (calledNumbers (gameData g)) ;;
  ow <- checkWinCondition g (opponentBoard (gameData g))
                          (calledNumbers (gameData g)) ;;
  let creatorLines := if cw : bool then 5 else 0 in
  let opponentLines := if ow : bool then 5 else 0 in
  let g1 := set_completedLines g creatorLines opponentLines in
  let w := pickWinner g1 creatorLines opponentLines in
  Some (match w with
        | Some winnerId => endGame now g1 winnerId
        | None => g1
        end, w).

Definition callNumberRoute (enforce : bool) (now : Z) (db : Store)
  (me : ObjectId) (gameId : nat) (number : Payload) : Reply * Store :=
  match findById db gameId with
  | None => (Err 404 "Game not found", db)
  | Some game =>
      if negb (Status_eqb (status game) active)
      then (Err 400 "Game is not active", db)
      else if negb (isUserTurn game me)
      then (Err 400 "It is not your turn", db)
      else if invalidNumber number
      then (Err 400 "Invalid number. Must be between 1 and 25.", db)
      else
        let (numberCalled, g1) := callNumber game (payloadNumber number) me in
        if negb numberCalled
        then (Err 400 "Number has already been called", db)
        else match evaluate now g1 with
             | None => (internalError, db)
             | Some (g2, _) =>
                 match save enforce now db g2 with
                 | Some (g3, db') => (Ok 200 "Number called successfully" g3, db')
                 | None => (internalError, db)
                 end
             end
  end.

(** *** POST /:gameId/decline *)

Definition declineGame (enforce : bool) (now : Z) (db : Store)
  (me : ObjectId) (gameId : nat) : Reply * Store :=
  match findById db gameId with
  | None => (Err 404 "Game not found", db)
  | Some game =>
      if negb (Nat.eqb (opponent game) me)
      then (Err 403 "You can only decline games where you are the opponent", db)
      else if negb (Status_eqb (status game) pending)
      then (Err 400 "Game is not pending", db)
      else match save enforce now db (set_status game cancelled) with
           | Some (g, db') => (Ok 200 "Game invitation declined" g, db')
           | None => (internalError, db)
           end
  end.

(** *** POST /:gameId/cancel *)

Definition cancelGame (enforce : bool) (now : Z) (db : Store)
  (me : ObjectId) (gameId : nat) : Reply * Store :=
  match findById db gameId with
  | None => (Err 404 "Game not found", db)
  | Some game =>
      if negb (Nat.eqb (creator game) me)
      then (Err 403 "Only the creator can cancel a game", db)
      else if Status_eqb (status game) completed
      then (Err 400 "Cannot cancel a completed game", db)
      else match save enforce now db (set_status game cancelled) with
           | Some (g, db') => (Ok 200 "Game cancelled successfully" g, db')
           | None => (internalError, db)
           end
  end.

End Routes.

(** ** The invitation gateway (socket handlers over the same collection) *)
Module Sockets.
Import Model.

(** What a handler emits: an ['error'] to the acting socket, or the named
    event of the successful branch.  Delivery through the presence map is
    not part of the model. *)
Inductive Outcome : Type :=
| Rejected (message : string)
| Emitted (event : string) (game : Game).

(** The ['respond-to-invitation'] handler. *)
Definition respondToInvitation (enforce : bool) (now : Z) (db : Store)
  (me : ObjectId) (gameId : nat) (accepted : bool) : Outcome * Store :=
  match findById db gameId with
  | None => (Rejected "Game not found", db)
  | Some game =>
      if negb (Nat.eqb (opponent game) me)
      then (Rejected "Not authorized", db)
      else if accepted then
        match save enforce now db (Routes.activate now game) with
        | Some (g, db') => (Emitted "game-started" g, db')
        | None => (Rejected "Failed to respond to invitation", db)
        end
      else
        match save enforce now db (set_status game cancelled) with
        | Some (g, db') => (Emitted "invitation-declined" g, db')
        | None => (Rejected "Failed to respond to invitation", db)
        end
  end.

(** The ['call-number'] handler.  The payload number is not validated
    here; it is taken as a number. *)
Definition callNumberHandler (enforce : bool) (now : Z) (db : Store)
  (me : ObjectId) (gameId : nat) (number : Z) : Outcome * Store :=
  match findById db gameId with
  | None => (Rejected "Game not found", db)
  | Some game =>
      if negb (Status_eqb (status game) active)
      then (Rejected "Game is not active", db)
      else if negb (isUserTurn game me)
      then (Rejected "It is not your turn", db)
      else
        let (numberCalled, g1) := callNumber game number me in
        if negb numberCalled
        then (Rejected "Number has already been called", db)
        else match save enforce now db g1 with
             | Some (g, db') => (Emitted "number-called" g, db')
             | None => (Rejected "Failed to call number", db)
             end
  end.

End Sockets.

(** ** The room gateway *)
Module Realtime.

(** *** Win-pattern helpers *)

Inductive WinPattern : Type := line | full | corners | diagonal | unknownPattern.

(** [board[i][j]], throwing when [board[i]] is missing. *)
Definition cellAt (board : Board) (i j : nat) : option Cell :=
  r <- rowOf board i ;; Some (at_ r j).

(** The row loop of [checkLineWin]: [Some true] on the first full row,
    [Some false] when the loop ends, [None] when it throws. *)
Fixpoint anyRow (board : Board) (called : list Z) (idxs : list nat)
  : option bool :=
  match idxs with
  | [] => Some false
  | i :: rest =>
      r <- rowOf board i ;;
      if forallb (includesCell called) r then Some true
      else anyRow board called rest
  end.

(** The column loop of [checkLineWin]. *)
Fixpoint anyCol (board : Board) (called : list Z) (js : list nat) : bool :=
  match js with
  | [] => false
  | j :: rest =>
      if forallb (fun row => includesCell called (at_ row j)) board then true
      else anyCol board called rest
  end.

Definition checkLineWin (board : Board) (called : list Z) : option bool :=
  r <- anyRow board called fiveIndices ;;
  if r : bool then Some true else Some (anyCol board called fiveIndices).

Definition checkFullWin (board : Board) (called : list Z) : option bool :=
  Some (forallb (fun row => forallb (includesCell called) row) board).

Definition checkCornersWin (board : Board) (called : list Z) : option bool :=
  c1 <- cellAt board 0 0 ;;
  c2 <- cellAt board 0 4 ;;
  c3 <- cellAt board 4 0 ;;
  c4 <- cellAt board 4 4 ;;
  Some (forallb (includesCell called) [c1; c2; c3; c4]).

Definition checkDiagonalWin (board : Board) (called : list Z) : option bool :=
  m0 <- cellAt board 0 0 ;;
  m1 <- cellAt board 1 1 ;;
  m2 <- cellAt board 2 2 ;;
  m3 <- cellAt board 3 3 ;;
  m4 <- cellAt board 4 4 ;;
  if forallb (includesCell called) [m0; m1; m2; m3; m4] then Some true
  else
    a0 <- cellAt board 0 4 ;;
    a1 <- cellAt board 1 3 ;;
    a2 <- cellAt board 2 2 ;;
    a3 <- cellAt board 3 1 ;;
    a4 <- cellAt board 4 0 ;;
    Some (forallb (includesCell called) [a0; a1; a2; a3; a4]).

Definition checkWinCondition (board : Board) (called : list Z)
  (winPattern : WinPattern) : option bool :=
  match winPattern with
  | line => checkLineWin board called
  | full => checkFullWin board called
  | corners => checkCornersWin board called
  | diagonal => checkDiagonalWin board called
  | unknownPattern => checkLineWin board called
  end.

(** *** Rooms *)

Inductive RoomStatus : Type := waiting | starting | active | completed.

Definition RoomStatus_eqb (a b : RoomStatus) : bool :=
  match a, b with
  | waiting, waiting | starting, starting
  | active, active | completed, completed => true
  | _, _ => false
  end.

Record Player : Type := mkPlayer { user : ObjectId; isHost : bool }.

Record CalledNumber : Type := mkCalledNumber {
  number : Z;
  calledBy : ObjectId;
  calledAt : Z
}.

(** Modelled from the spec: the room document.  The schema behind the room
    gateway (documents found by [roomCode], with [players],
    [calledNumbers] entries {number, calledBy, timestamp},
    [gameSettings.winPattern]) is not among the sources; the record has
    the fields the handlers read and write, and the history entry is the
    spec's {number, calledBy identity, timestamp}. *)
Record Room : Type := mkRoom {
  roomId : nat;
  roomCode : string;
  status : RoomStatus;
  players : list Player;
  calledNumbers : list CalledNumber;
  winPattern : WinPattern;
  winner : option ObjectId;
  completedAt : option Z
}.

Definition Rooms := list Room.

(** [String.prototype.toUpperCase] on strings of ASCII characters: the
    letters a to z are mapped, every other character is left as it is
    (JavaScript also maps cased letters outside ASCII). *)
Definition upperAscii (c : ascii) : ascii :=
  let n := nat_of_ascii c in
  if (Nat.leb 97 n && Nat.leb n 122)%bool then ascii_of_nat (n - 32) else c.

Fixpoint toUpperCase (s : string) : string :=
  match s with
  | EmptyString => EmptyString
  | String c rest => String (upperAscii c) (toUpperCase rest)
  end.

(** [Game.findOne({ roomCode: roomCode.toUpperCase() })] *)
Definition findOne (db : Rooms) (code : string) : option Room :=
  find (fun r => String.eqb (roomCode r) (toUpperCase code)) db.

(** Modelled from the spec: [save] of a room document, the store's
    per-document update (the room schema and its middleware, if any, are
    not among the sources). *)
Fixpoint saveRoom (db : Rooms) (r : Room) : Rooms :=
  match db with
  | [] => [r]
  | d :: rest => if Nat.eqb (roomId d) (roomId r) then r :: rest
                 else d :: saveRoom rest r
  end.

Inductive Outcome : Type :=
| Rejected (message : string)
| Emitted (event : string) (room : Room).

(** [!number || number < 1 || number > 75] on a JSON number or an absent
    field; how the test coerces values of other types is outside the
    model. *)
Definition invalidNumber (p : Payload) : bool :=
  match p with
  | PUndefined => true
  | PNumber n => (n =? 0) || (n <? 1) || (75 <? n)
  end.

Definition payloadNumber (p : Payload) : Z :=
  match p with PNumber n => n | PUndefined => 0 end.

(** [game.players.some(p => p.user.toString() === socket.user._id.toString())] *)
Definition isPlayer (r : Room) (me : ObjectId) : bool :=
  existsb (fun p => Nat.eqb (user p) me) (players r).

Definition pushCalled (r : Room) (cn : CalledNumber) : Room :=
  mkRoom (roomId r) (roomCode r) (status r) (players r)
         (calledNumbers r ++ [cn]) (winPattern r) (winner r) (completedAt r).

(** The ['callNumber'] handler. *)
Definition callNumberHandler (now : Z) (db : Rooms) (me : ObjectId)
  (code : string) (num : Payload) : Outcome * Rooms :=
  if invalidNumber num
  then (Rejected "Invalid number (must be 1-75)", db)
  else match findOne db code with
       | None => (Rejected "Room not found", db)
       | Some game =>
           if negb (RoomStatus_eqb (status game) active)
           then (Rejected "Game is not active", db)
           else if negb (isPlayer game me)
           then (Rejected "You are not in this game", db)
           else if existsb (fun cn => number cn =? payloadNumber num)
                           (calledNumbers game)
           then (Rejected "Number already called", db)
           else
             let g := pushCalled game
                        (mkCalledNumber (payloadNumber num) me now) in
             (Emitted "numberCalled" g, saveRoom db g)
       end.

Definition complete (now : Z) (r : Room) (me : ObjectId) : Room :=
  mkRoom (roomId r) (roomCode r) completed (players r) (calledNumbers r)
         (winPattern r) (Some me) (Some now).

(** The ['checkWin'] handler; [board = None] is a payload without an array
    under [board]. *)
Definition checkWinHandler (now : Z) (db : Rooms) (me : ObjectId)
  (code : string) (board : option Board) : Outcome * Rooms :=
  match board with
  | None => (Rejected "Invalid board data", db)
  | Some b =>
      match findOne db code with
      | None => (Rejected "Room not found", db)
      | Some game =>
          if negb (RoomStatus_eqb (status game) active)
          then (Rejected "Game is not active", db)
          else if negb (isPlayer game me)
          then (Rejected "You are not in this game", db)
          else match checkWinCondition b (map number (calledNumbers game))
                                       (winPattern game) with
               | None => (Rejected "Failed to check win condition", db)
               | Some true =>
                   let g := complete now game me in
                   (Emitted "gameCompleted" g, saveRoom db g)
               | Some false => (Emitted "winCheckResult" game, db)
               end
      end
  end.

End Realtime.

(** ** Runs and sample data used by the statements below *)
Module Scenario.
Import Model.

(** A sequence of [callNumber] invocations on one document. *)
Definition runCalls (g : Game) (calls : list (Z * ObjectId)) : Game :=
  fold_left (fun acc c => snd (callNumber acc (fst c) (snd c))) calls g.

Definition history (g : Game) : list Z := calledNumbers (gameData g).

(** The board 1..25 in reading order, FREE at the centre. *)
Definition orderedBoard : Board :=
  [ [Num 1;  Num 2;  Num 3;  Num 4;  Num 5];
    [Num 6;  Num 7;  Num 8;  Num 9;  Num 10];
    [Num 11; Num 12; Free;   Num 14; Num 15];
    [Num 16; Num 17; Num 18; Num 19; Num 20];
    [Num 21; Num 22; Num 23; Num 24; Num 25] ].

(** An active two-player game: creator 1, opponent 2, shared board. *)
Definition activeGame (called : list Z) (turn : Turn) (required : Z) : Game :=
  mkGame 100 1%nat 2%nat active None multiplayer
         (mkGameData orderedBoard orderedBoard called turn 0 0 None None)
         (Some 0) None None required 25 true invitationWindow.

(** A pending invitation from 1 to 2 created at time 0. *)
Definition pendingGame : Game :=
  Routes.newGame 0 100 1%nat 2%nat multiplayer orderedBoard.

(** The participant the turn pointer designates. *)
Definition currentTurnUser (g : Game) : ObjectId :=
  match currentTurn (gameData g) with
  | creatorTurn => creator g
  | opponentTurn => opponent g
  end.

(** An active room with two players and the given history. *)
Definition sampleRoom (called : list Realtime.CalledNumber) : Realtime.Room :=
  Realtime.mkRoom 7 "ROOM42" Realtime.active
                  [Realtime.mkPlayer 1%nat true; Realtime.mkPlayer 2%nat false]
                  called Realtime.line None None.

(** An active solo game of user 1 (creator and opponent coincide). *)
Definition soloGame : Game :=
  mkGame 100 1%nat 1%nat active None solo
         (mkGameData orderedBoard orderedBoard [] creatorTurn 0 0 None None)
         (Some 0) None None 5 25 true invitationWindow.

(** A random source whose every draw is 0. *)
Definition zeroDraws : nat -> Routes.Draw := fun _ => Routes.mkDraw 0 0.

(** Rows 0 to 3 of [orderedBoard] called (four completed lines), after 19
    alternating calls that began with the creator. *)
Definition fourRowsCalled : list Z :=
  [1; 2; 3; 4; 5; 6; 7; 8; 9; 10; 11; 12; 14; 15; 16; 17; 18; 19; 20].

(** Whether a payload is a number within the given bounds. *)
Definition between (lo hi : Z) (p : Payload) : Prop :=
  match p with
  | PNumber n => lo <= n <= hi
  | PUndefined => False
  end.

(** The cells of a board other than the centre, in reading order, and
    the centre cell. *)
Definition otherCells (b : Board) : list Cell :=
  concat (firstn 2 b) ++
  (firstn 2 (nth 2 b []) ++ skipn 3 (nth 2 b [])) ++
  concat (skipn 3 b).

Definition centerCell (b : Board) : Cell := at_ (nth 2 b []) 2.

(** The history of a room in which 11, 12, 14 and 15 were called. *)
Definition centerRowCalls : list Realtime.CalledNumber :=
  [Realtime.mkCalledNumber 11 1%nat 1; Realtime.mkCalledNumber 12 2%nat 2;
   Realtime.mkCalledNumber 14 1%nat 3; Realtime.mkCalledNumber 15 2%nat 4].

End Scenario.

(** ** The operations that write a session, as one step function *)
Module Lifecycle.
Import Model.

Inductive Op : Type :=
| Join (me : ObjectId) (gameId : nat)
| RespondToInvitation (me : ObjectId) (gameId : nat) (accepted : bool)
| Decline (me : ObjectId) (gameId : nat)
| Cancel (me : ObjectId) (gameId : nat)
| CallNumberRest (me : ObjectId) (gameId : nat) (number : Payload)
| CallNumberSocket (me : ObjectId) (gameId : nat) (number : Z).

(** The collection after one operation handled at time [now]. *)
Definition step (enforce : bool) (now : Z) (db : Store) (op : Op) : Store :=
  match op with
  | Join me gameId => snd (Routes.joinGame enforce now db me gameId)
  | RespondToInvitation me gameId accepted =>
      snd (Sockets.respondToInvitation enforce now db me gameId accepted)
  | Decline me gameId => snd (Routes.declineGame enforce now db me gameId)
  | Cancel me gameId => snd (Routes.cancelGame enforce now db me gameId)
  | CallNumberRest me gameId number =>
      snd (Routes.callNumberRoute enforce now db me gameId number)
  | CallNumberSocket me gameId number =>
      snd (Sockets.callNumberHandler enforce now db me gameId number)
  end.

(** A sequence of operations, each with the time at which it is handled. *)
Definition run (enforce : bool) (db : Store) (ops : list (Z * Op)) : Store :=
  fold_left (fun acc o => step enforce (fst o) acc (snd o)) ops db.

Definition isRespond (op : Op) : bool :=
  match op with RespondToInvitation _ _ _ => true | _ => false end.

(** The transitions the specification lists (staying put included). *)
Definition specTransition (s s' : Status) : bool :=
  match s, s' with
  | pending, (pending | active | cancelled) => true
  | active, (active | completed) => true
  | completed, completed => true
  | cancelled, cancelled => true
  | _, _ => false
  end.

(** The same with the creator's cancellation of an active session. *)
Definition codeTransition (s s' : Status) : bool :=
  specTransition s s' ||
  match s, s' with active, cancelled => true | _, _ => false end.

(** The transitions one operation [op] makes on the session stored under
    [id]: those the specification lists and, only when [op] is the cancel
    route called by the session's creator for that session, active to
    cancelled. *)
Definition stepAllowed (g : Game) (id : nat) (op : Op) (s' : Status) : Prop :=
  specTransition (status g) s' = true \/
  (status g = active /\ s' = cancelled /\ op = Cancel (creator g) id).

(** What a sequence of such transitions can reach. *)
Definition reachable (s s' : Status) : bool :=
  match s, s' with
  | pending, _ => true
  | active, (active | completed | cancelled) => true
  | completed, completed => true
  | cancelled, cancelled => true
  | _, _ => false
  end.

End Lifecycle.

(** ** Presence and the per-socket session *)
Module Gateway.
Import Model.

(** *** The presence map [connectedUsers] *)

(** A JavaScript [Map] from user id to socket id: entries in insertion
    order, [set] on a present key keeps its place. *)
Definition Presence := list (ObjectId * nat).

Fixpoint mapGet (m : Presence) (k : ObjectId) : option nat :=
  match m with
  | [] => None
  | (k', v) :: rest => if Nat.eqb k' k then Some v else mapGet rest k
  end.

Fixpoint mapSet (m : Presence) (k : ObjectId) (v : nat) : Presence :=
  match m with
  | [] => [(k, v)]
  | (k', v') :: rest =>
      if Nat.eqb k' k then (k, v) :: rest else (k', v') :: mapSet rest k v
  end.

Fixpoint mapDelete (m : Presence) (k : ObjectId) : Presence :=
  match m with
  | [] => []
  | (k', v') :: rest =>
      if Nat.eqb k' k then rest else (k', v') :: mapDelete rest k
  end.

(** What happens to the map when a socket of a user connects or
    disconnects. *)
Inductive PresenceEvent : Type :=
| Connect (userId : ObjectId) (socketId : nat)
| Disconnect (userId : ObjectId) (socketId : nat).

Definition presenceStep (m : Presence) (e : PresenceEvent) : Presence :=
  match e with
  | Connect u s => mapSet m u s
  | Disconnect u _ => mapDelete m u
  end.

Definition presenceRun (m : Presence) (es : list PresenceEvent) : Presence :=
  fold_left presenceStep es m.

Definition eventUser (e : PresenceEvent) : ObjectId :=
  match e with Connect u _ | Disconnect u _ => u end.

(** The socket a user is reachable on according to the events alone: that
    of the latest event of that user, if it is a connect. *)
Fixpoint reachableOn (es : list PresenceEvent) (u : ObjectId) (acc : option nat)
  : option nat :=
  match es with
  | [] => acc
  | Connect u' s :: rest =>
      reachableOn rest u (if Nat.eqb u' u then Some s else acc)
  | Disconnect u' _ :: rest =>
      reachableOn rest u (if Nat.eqb u' u then None else acc)
  end.

(** The ['send-invitation'] handler: the socket the invitation is sent
    to, if any; the sender is always told ['invitation-sent']. *)
Definition sendInvitation (m : Presence) (opponentId : ObjectId)
  : option nat * string :=
  (mapGet m opponentId, "invitation-sent"%string).

(** *** The per-socket session *)

(** The part of a socket's state the handlers use: the authenticated user
    and [currentGameId]. *)
Record Socket : Type := mkSocket {
  userId : ObjectId;
  currentGameId : option nat
}.

Definition set_currentGameId (s : Socket) (c : option nat) : Socket :=
  mkSocket (userId s) c.

(** The ['join-game'] handler. *)
Definition joinGameHandler (db : Store) (s : Socket) (gameId : nat)
  : Sockets.Outcome * Socket :=
  match findById db gameId with
  | None => (Sockets.Rejected "Game not found", s)
  | Some game =>
      if negb (Nat.eqb (creator game) (userId s)) &&
         negb (Nat.eqb (opponent game) (userId s))
      then (Sockets.Rejected "Access denied", s)
      else (Sockets.Emitted "game-joined" game,
            set_currentGameId s (Some gameId))
  end.

(** The ['leave-game'] handler. *)
Definition leaveGameHandler (s : Socket) (gameId : nat) : Socket :=
  set_currentGameId s None.

(** The ['respond-to-invitation'] handler with its effect on the socket:
    [currentGameId] is set once an acceptance was saved. *)
Definition respondHandler (enforce : bool) (now : Z) (db : Store) (s : Socket)
  (gameId : nat) (accepted : bool) : Sockets.Outcome * Store * Socket :=
  let (out, db') :=
    Sockets.respondToInvitation enforce now db (userId s) gameId accepted in
  match out with
  | Sockets.Emitted _ _ =>
      (out, db', if accepted then set_currentGameId s (Some gameId) else s)
  | Sockets.Rejected _ => (out, db', s)
  end.

(** The ['game-message'] and ['typing'] handlers relay to the room of
    [gameId] exactly when [socket.currentGameId === gameId]. *)
Definition relays (s : Socket) (gameId : nat) : bool :=
  match currentGameId s with
  | Some c => Nat.eqb c gameId
  | None => false
  end.

(** What can happen while a socket is connected: its own events, and
    operations on the collection by anyone. *)
Inductive SessionEvent : Type :=
| EvJoinGame (gameId : nat)
| EvLeaveGame (gameId : nat)
| EvRespond (now : Z) (gameId : nat) (accepted : bool)
| EvOperation (now : Z) (op : Lifecycle.Op)
| EvCreate (rnd : nat -> Routes.Draw) (now : Z) (users : list ObjectId)
           (who : ObjectId) (body : Routes.CreateBody).

Definition sessionStep (enforce : bool) (st : Store * Socket) (e : SessionEvent)
  : Store * Socket :=
  let (db, s) := st in
  match e with
  | EvJoinGame gameId => (db, snd (joinGameHandler db s gameId))
  | EvLeaveGame gameId => (db, leaveGameHandler s gameId)
  | EvRespond now gameId accepted =>
      let r := respondHandler enforce now db s gameId accepted in
      (snd (fst r), snd r)
  | EvOperation now op => (Lifecycle.step enforce now db op, s)
  | EvCreate rnd now users who body =>
      (snd (Routes.createGame enforce rnd now users db who body), s)
  end.

Definition sessionRun (enforce : bool) (st : Store * Socket)
  (es : list SessionEvent) : Store * Socket :=
  fold_left (sessionStep enforce) es st.

End Gateway.

(** ** Quantities the invariants below speak about *)
Module Measures.
Import Model.

(** The last element of the history, if any. *)
Definition lastOf (l : list Z) : option Z :=
  match rev l with
  | [] => None
  | x :: _ => Some x
  end.

(** Whose turn it is after [n] recorded calls when the creator began. *)
Definition turnAfter (n : nat) : Turn :=
  if Nat.even n then creatorTurn else opponentTurn.

(** The session an operation addresses. *)
Definition opId (op : Lifecycle.Op) : nat :=
  match op with
  | Lifecycle.Join _ gameId
  | Lifecycle.RespondToInvitation _ gameId _
  | Lifecycle.Decline _ gameId
  | Lifecycle.Cancel _ gameId
  | Lifecycle.CallNumberRest _ gameId _
  | Lifecycle.CallNumberSocket _ gameId _ => gameId
  end.

Definition isSocketCall (op : Lifecycle.Op) : bool :=
  match op with Lifecycle.CallNumberSocket _ _ _ => true | _ => false end.

Definition isParticipant (g : Game) (u : ObjectId) : Prop :=
  creator g = u \/ opponent g = u.

(** Whether a string holds ASCII characters only; on such strings
    [Realtime.toUpperCase] is [String.prototype.toUpperCase]. *)
Fixpoint isAscii (s : string) : bool :=
  match s with
  | EmptyString => true
  | String c rest => Nat.ltb (nat_of_ascii c) 128 && isAscii rest
  end.

(** What no operation changes in a session. *)
Definition sameSetup (g g' : Game) : Prop :=
  _id g' = _id g /\
  creator g' = creator g /\ opponent g' = opponent g /\
  gameType g' = gameType g /\
  creatorBoard (gameData g') = creatorBoard (gameData g) /\
  opponentBoard (gameData g') = opponentBoard (gameData g) /\
  requiredLines g' = requiredLines g /\
  maxNumbers g' = maxNumbers g /\
  invitationExpiresAt g' = invitationExpiresAt g.

(** The history of [g'] continues that of [g]. *)
Definition extends (g g' : Game) : Prop :=
  exists added, Scenario.history g' = Scenario.history g ++ added.

(** The turn pointer and the last-called number agree with the history. *)
Definition consistent (g : Game) : Prop :=
  currentTurn (gameData g) = turnAfter (List.length (Scenario.history g)) /\
  lastCalledNumber (gameData g) = lastOf (Scenario.history g).

(** A duplicate-free history of numbers from 1 to 25. *)
Definition restHistory (g : Game) : Prop :=
  NoDup (Scenario.history g) /\
  Forall (fun n => 1 <= n <= 25) (Scenario.history g).

End Measures.

(** * Properties *)

(** ** Array helpers *)

Lemma includes_In (l : list Z) (n : Z) : includes l n = true <-> In n l.
Proof.
  unfold includes. rewrite existsb_exists. split.
  - intros [x [Hin Heq]]. apply Z.eqb_eq in Heq. now subst.
  - intros Hin. exists n. split; [assumption | apply Z.eqb_refl].
Qed.

Lemma includes_not_In (l : list Z) (n : Z) : includes l n = false <-> ~ In n l.
Proof.
  rewrite <- includes_In. destruct (includes l n); split; intros H.
  - discriminate.
  - exfalso. now apply H.
  - intros H'. discriminate.
  - reflexivity.
Qed.

(** ** The model's [callNumber] *)
Module CallNumber.
Import Model Scenario.

Lemma callNumber_seen (g : Game) (n : Z) (who : ObjectId) :
  In n (history g) -> callNumber g n who = (false, g).
Proof.
  intros Hin. unfold callNumber.
  apply includes_In in Hin. unfold history in Hin. now rewrite Hin.
Qed.

Lemma callNumber_history (g : Game) (n : Z) (who : ObjectId) :
  history (snd (callNumber g n who)) =
  if includes (history g) n then history g else history g ++ [n].
Proof.
  unfold callNumber, history. now destruct (includes _ n).
Qed.

Lemma callNumber_NoDup (g : Game) (n : Z) (who : ObjectId) :
  NoDup (history g) -> NoDup (history (snd (callNumber g n who))).
Proof.
  intros Hnd. rewrite callNumber_history.
  destruct (includes (history g) n) eqn:E; [assumption |].
  apply includes_not_In in E.
  apply NoDup_rev in Hnd. rewrite <- (rev_involutive (history g ++ [n])).
  apply NoDup_rev. rewrite rev_app_distr. simpl. constructor.
  - now rewrite <- in_rev.
  - assumption.
Qed.

Lemma runCalls_NoDup (calls : list (Z * ObjectId)) :
  forall g, NoDup (history g) -> NoDup (history (runCalls g calls)).
Proof.
  induction calls as [| c calls IH]; intros g Hnd; simpl.
  - assumption.
  - apply IH. now apply callNumber_NoDup.
Qed.

(** C1.  A number that is already in the called-number history makes
    [callNumber] return false and leaves the whole document as it was
    (nothing appended, last-called fields and turn pointer untouched);
    consequently a duplicate-free history stays duplicate-free under any
    sequence of [callNumber] invocations. *)
Theorem callNumber_duplicate_is_noop :
  forall (g : Game) (n : Z) (who : ObjectId) (calls : list (Z * ObjectId)),
    (In n (history g) -> callNumber g n who = (false, g)) /\
    (NoDup (history g) -> NoDup (history (runCalls g calls))).
Proof.
  intros g n who calls. split.
  - apply callNumber_seen.
  - apply runCalls_NoDup.
Qed.

Lemma callNumber_duplicate_is_noop_witness :
  callNumber (activeGame [7] opponentTurn 5) 7 1%nat
    = (false, activeGame [7] opponentTurn 5) /\
  NoDup (history (runCalls (activeGame [7] opponentTurn 5)
                           [(7, 2%nat); (8, 2%nat); (8, 1%nat); (7, 1%nat)])).
Proof.
  destruct (callNumber_duplicate_is_noop
              (activeGame [7] opponentTurn 5) 7 1%nat
              [(7, 2%nat); (8, 2%nat); (8, 1%nat); (7, 1%nat)]) as [Hdup Hrun].
  split.
  - apply Hdup. simpl. left. reflexivity.
  - apply Hrun. simpl. constructor; [intros [] | constructor].
Defined.

(** C2.  A number that is not yet in the history is appended to it,
    recorded as the last called number together with its caller, the turn
    pointer flips to the other participant, and the method returns true;
    status, participants and boards are not touched. *)
Theorem callNumber_fresh_records_and_flips :
  forall (g : Game) (n : Z) (who : ObjectId),
    ~ In n (history g) ->
    let g' := snd (callNumber g n who) in
    fst (callNumber g n who) = true /\
    history g' = history g ++ [n] /\
    lastCalledNumber (gameData g') = Some n /\
    lastCalledBy (gameData g') = Some who /\
    currentTurn (gameData g') = flipTurn (currentTurn (gameData g)) /\
    (currentTurn (gameData g) = creatorTurn ->
     currentTurn (gameData g') = opponentTurn) /\
    (currentTurn (gameData g) = opponentTurn ->
     currentTurn (gameData g') = creatorTurn) /\
    status g' = status g /\
    creator g' = creator g /\ opponent g' = opponent g /\
    creatorBoard (gameData g') = creatorBoard (gameData g) /\
    opponentBoard (gameData g') = opponentBoard (gameData g).
Proof.
  intros g n who Hfresh. apply includes_not_In in Hfresh.
  unfold history in *. unfold callNumber. rewrite Hfresh. simpl.
  repeat split; intros Ht; now rewrite Ht.
Qed.

(** Scenario B of the specification, run on the model: the first call of 7
    is recorded and passes the turn, the second is a no-op. *)
Lemma callNumber_fresh_records_and_flips_witness :
  let g1 := snd (callNumber (activeGame [] creatorTurn 5) 7 1%nat) in
  fst (callNumber (activeGame [] creatorTurn 5) 7 1%nat) = true /\
  history g1 = [7] /\
  currentTurn (gameData g1) = opponentTurn /\
  callNumber g1 7 1%nat = (false, g1).
Proof.
  destruct (callNumber_fresh_records_and_flips
              (activeGame [] creatorTurn 5) 7 1%nat) as
    (H1 & H2 & _ & _ & _ & H6 & _).
  - simpl. intros [].
  - split; [exact H1 |].
    split; [exact H2 |].
    split; [apply H6; reflexivity | reflexivity].
Defined.

End CallNumber.

(** ** Win evaluation: the model's path and the room gateway's path *)
Module WinCheck.
Import Scenario.

(** On the model's path a FREE cell passes the test whatever was called. *)
Lemma satisfied_Free (called : list Z) : Model.satisfied called Free = true.
Proof. reflexivity. Qed.

(** On the room gateway's path the test is [calledNumbers.includes(num)]
    alone, and ['FREE'] is never a called number. *)
Lemma includesCell_Free (called : list Z) : includesCell called Free = false.
Proof. reflexivity. Qed.

Lemma countRows_lower (board : Board) (called : list Z) (idxs : list nat) :
  forall acc n, Model.countRows board called idxs acc = Some n -> acc <= n.
Proof.
  induction idxs as [| i idxs IH]; intros acc n H; simpl in H.
  - injection H as <-. lia.
  - destruct (rowOf board i) as [r |]; simpl in H; [| discriminate].
    apply IH in H. destruct (forallb _ r); lia.
Qed.

Lemma countRows_counts (board : Board) (called : list Z) (idxs : list nat) :
  forall acc n i r,
    Model.countRows board called idxs acc = Some n ->
    In i idxs -> rowOf board i = Some r ->
    forallb (Model.satisfied called) r = true ->
    acc + 1 <= n.
Proof.
  induction idxs as [| j idxs IH]; intros acc n i r H Hin Hr Hfull;
    simpl in H; [destruct Hin |].
  destruct Hin as [-> | Hin].
  - rewrite Hr in H. simpl in H. rewrite Hfull in H.
    now apply countRows_lower in H.
  - destruct (rowOf board j) as [rj |]; simpl in H; [| discriminate].
    specialize (IH _ _ _ _ H Hin Hr Hfull).
    destruct (forallb _ rj); lia.
Qed.

Lemma countRows_total (board : Board) (called : list Z) (idxs : list nat) :
  (forall i, In i idxs -> (i < List.length board)%nat) ->
  forall acc, exists n, Model.countRows board called idxs acc = Some n.
Proof.
  induction idxs as [| i idxs IH]; intros Hall acc; simpl.
  - now exists acc.
  - destruct (rowOf board i) as [r |] eqn:E.
    + simpl. apply IH. intros j Hj. apply Hall. now right.
    + apply nth_error_None in E.
      specialize (Hall i (or_introl eq_refl)). lia.
Qed.

Lemma countCols_lower (board : Board) (called : list Z) (js : list nat) :
  forall acc, acc <= Model.countCols board called js acc.
Proof.
  induction js as [| j js IH]; intros acc; simpl.
  - lia.
  - match goal with |- _ <= Model.countCols _ _ _ ?a => specialize (IH a) end.
    destruct (forallb _ board); lia.
Qed.

Lemma cellSatisfied_total (board : Board) (called : list Z) (i j : nat) :
  (i < List.length board)%nat ->
  exists b, Model.cellSatisfied board called i j = Some b.
Proof.
  intros Hi. unfold Model.cellSatisfied, rowOf.
  destruct (nth_error board i) as [r |] eqn:E.
  - simpl. eauto.
  - apply nth_error_None in E. lia.
Qed.

Lemma diagonal_total (board : Board) (called : list Z)
  (a b c d e f g h k l : nat) :
  (a < List.length board)%nat -> (c < List.length board)%nat ->
  (e < List.length board)%nat -> (g < List.length board)%nat ->
  (k < List.length board)%nat ->
  exists x,
    Model.andAlso (Model.cellSatisfied board called a b)
   (Model.andAlso (Model.cellSatisfied board called c d)
   (Model.andAlso (Model.cellSatisfied board called e f)
   (Model.andAlso (Model.cellSatisfied board called g h)
                  (Model.cellSatisfied board called k l)))) = Some x.
Proof.
  intros Ha Hc He Hg Hk.
  destruct (cellSatisfied_total board called a b Ha) as [x1 ->].
  destruct (cellSatisfied_total board called c d Hc) as [x2 ->].
  destruct (cellSatisfied_total board called e f He) as [x3 ->].
  destruct (cellSatisfied_total board called g h Hg) as [x4 ->].
  destruct (cellSatisfied_total board called k l Hk) as [x5 ->].
  destruct x1, x2, x3, x4; simpl; eauto.
Qed.

(** A board with at least five rows never makes the evaluation throw, and
    every fully satisfied row among the first five is counted. *)
Lemma completedLines_row (board : Board) (called : list Z) (i : nat)
  (r : list Cell) :
  (5 <= List.length board)%nat ->
  In i fiveIndices -> rowOf board i = Some r ->
  forallb (Model.satisfied called) r = true ->
  exists n, Model.completedLines board called = Some n /\ 1 <= n.
Proof.
  intros Hlen Hin Hr Hfull. unfold Model.completedLines.
  destruct (countRows_total board called fiveIndices) with (acc := 0)
    as [n1 Hn1].
  { intros k Hk. simpl in Hk. lia. }
  rewrite Hn1. cbv beta iota zeta delta [bind].
  pose proof (countRows_counts _ _ _ _ _ _ _ Hn1 Hin Hr Hfull) as Hge.
  pose proof (countCols_lower board called fiveIndices n1) as Hcols.
  unfold Model.mainDiagonal, Model.antiDiagonal.
  destruct (diagonal_total board called 0 0 1 1 2 2 3 3 4 4)%nat
    as [d1 ->]; try lia.
  destruct (diagonal_total board called 0 4 1 3 2 2 3 1 4 0)%nat
    as [d2 ->]; try lia.
  eexists. split; [reflexivity |].
  destruct d1, d2; lia.
Qed.

(** The model's path: a centre row made of the FREE centre and four called
    numbers is a completed line, so the board wins as soon as one line is
    required. *)
Lemma model_center_row_wins (g : Model.Game) (r0 r1 r3 r4 : list Cell)
  (a b c d : Z) (called : list Z) :
  In a called -> In b called -> In c called -> In d called ->
  Model.requiredLines g <= 1 ->
  Model.checkWinCondition g
    [r0; r1; [Num a; Num b; Free; Num c; Num d]; r3; r4] called = Some true.
Proof.
  intros Ha Hb Hc Hd Hreq. unfold Model.checkWinCondition.
  destruct (completedLines_row
              [r0; r1; [Num a; Num b; Free; Num c; Num d]; r3; r4]
              called 2%nat [Num a; Num b; Free; Num c; Num d])
    as [n [-> Hn]].
  - simpl. lia.
  - simpl. tauto.
  - reflexivity.
  - apply includes_In in Ha, Hb, Hc, Hd. simpl.
    unfold Model.satisfied. simpl. now rewrite Ha, Hb, Hc, Hd.
  - simpl. f_equal. apply Z.leb_le. lia.
Qed.

(** The room gateway's path: a row that holds a FREE cell is never a full
    row, whatever was called. *)
Lemma realtime_row_with_Free_never_full (called : list Z) (r : list Cell) :
  In Free r -> forallb (includesCell called) r = false.
Proof.
  intros Hin. destruct (forallb (includesCell called) r) eqn:E; [| reflexivity].
  rewrite forallb_forall in E. now apply E in Hin.
Qed.

(** C3.  On the board whose centre row is 11, 12, FREE, 14, 15, with
    exactly 11, 12, 14 and 15 called: the model's evaluation counts the
    centre row and wins when one line is required, while the room
    gateway's win check under pattern [line] answers false, because its
    cell test does not treat FREE as satisfied; the 'checkWin' handler
    accordingly reports no win and leaves the room active. *)
Theorem free_center_row_model_wins_realtime_does_not :
  Model.satisfied [11; 12; 14; 15] Free = true /\
  Model.completedLines orderedBoard [11; 12; 14; 15] = Some 1 /\
  Model.checkWinCondition (activeGame [11; 12; 14; 15] Model.creatorTurn 1)
                          orderedBoard [11; 12; 14; 15] = Some true /\
  includesCell [11; 12; 14; 15] Free = false /\
  Realtime.checkWinCondition orderedBoard [11; 12; 14; 15] Realtime.line
    = Some false /\
  Realtime.checkWinHandler 9 [sampleRoom centerRowCalls] 1%nat "room42"
                           (Some orderedBoard)
    = (Realtime.Emitted "winCheckResult" (sampleRoom centerRowCalls),
       [sampleRoom centerRowCalls]).
Proof. repeat split. Qed.

End WinCheck.

(** ** Turn order on the call-number entry points *)
Module TurnOrder.
Import Model Scenario.

Lemma isUserTurn_off_turn (g : Game) (me : ObjectId) :
  me <> currentTurnUser g -> isUserTurn g me = false.
Proof.
  unfold currentTurnUser, isUserTurn. intros Hne.
  destruct (Status_eqb (status g) active); simpl; [| reflexivity].
  destruct (currentTurn (gameData g)); simpl.
  - destruct (Nat.eqb_spec (creator g) me) as [E | E]; simpl.
    + now symmetry in E.
    + now rewrite andb_false_r.
  - rewrite andb_false_r.
    destruct (Nat.eqb_spec (opponent g) me) as [E | E]; simpl.
    + now symmetry in E.
    + reflexivity.
Qed.

(** C4 (as amended).  On an active session, a call by a participant other
    than the one the turn pointer designates is answered with the error
    "It is not your turn" and the collection is left exactly as it was, on
    the REST call-number route and on the 'call-number' socket handler. *)
Theorem off_turn_call_rejected :
  forall (enforce : bool) (now : Z) (db : Store) (me : ObjectId)
         (gameId : nat) (p : Payload) (n : Z) (game : Game),
    findById db gameId = Some game ->
    status game = active ->
    creator game = me \/ opponent game = me ->
    me <> currentTurnUser game ->
    Routes.callNumberRoute enforce now db me gameId p
      = (Routes.Err 400 "It is not your turn", db) /\
    Sockets.callNumberHandler enforce now db me gameId n
      = (Sockets.Rejected "It is not your turn", db).
Proof.
  intros enforce now db me gameId p n game Hfind Hact _ Hoff.
  unfold Routes.callNumberRoute, Sockets.callNumberHandler.
  rewrite Hfind, Hact, (isUserTurn_off_turn game me Hoff). simpl.
  split; reflexivity.
Qed.

Lemma off_turn_call_rejected_witness :
  Routes.callNumberRoute false 5 [activeGame [] creatorTurn 5] 2%nat 100
                         (PNumber 7)
    = (Routes.Err 400 "It is not your turn", [activeGame [] creatorTurn 5]) /\
  Sockets.callNumberHandler false 5 [activeGame [] creatorTurn 5] 2%nat 100 7
    = (Sockets.Rejected "It is not your turn", [activeGame [] creatorTurn 5]).
Proof.
  apply (off_turn_call_rejected false 5 [activeGame [] creatorTurn 5] 2%nat
           100%nat (PNumber 7) 7 (activeGame [] creatorTurn 5)).
  - reflexivity.
  - reflexivity.
  - right. reflexivity.
  - simpl. discriminate.
Defined.

(** C4 (as stated) fails on the 'callNumber' handler of the room gateway:
    rooms have no turn pointer, and from one and the same active room both
    players get their call accepted and recorded.  Hence no assignment of
    a current-turn player to rooms makes the handler reject the others. *)
Lemma callNumber_handler_has_no_turn :
  (Realtime.callNumberHandler 5 [sampleRoom []] 1%nat "room42" (PNumber 7)
     = (Realtime.Emitted "numberCalled"
          (sampleRoom [Realtime.mkCalledNumber 7 1%nat 5]),
        [sampleRoom [Realtime.mkCalledNumber 7 1%nat 5]]) /\
   Realtime.callNumberHandler 5 [sampleRoom []] 2%nat "room42" (PNumber 7)
     = (Realtime.Emitted "numberCalled"
          (sampleRoom [Realtime.mkCalledNumber 7 2%nat 5]),
        [sampleRoom [Realtime.mkCalledNumber 7 2%nat 5]])) /\
  ~ (exists currentTurnOf : Realtime.Room -> ObjectId,
       forall (now : Z) (db : Realtime.Rooms) (me : ObjectId) (code : string)
              (num : Payload) (room : Realtime.Room),
         Realtime.findOne db code = Some room ->
         Realtime.status room = Realtime.active ->
         Realtime.isPlayer room me = true ->
         me <> currentTurnOf room ->
         exists msg,
           Realtime.callNumberHandler now db me code num
             = (Realtime.Rejected msg, db)).
Proof.
  split; [split; reflexivity |].
  intros [turnOf H].
  destruct (Nat.eq_dec (turnOf (sampleRoom [])) 1%nat) as [E | E].
  - destruct (H 5 [sampleRoom []] 2%nat "room42"%string (PNumber 7)
                (sampleRoom [])) as [msg Hmsg];
      try reflexivity; [rewrite E; discriminate | discriminate Hmsg].
  - destruct (H 5 [sampleRoom []] 1%nat "room42"%string (PNumber 7)
                (sampleRoom [])) as [msg Hmsg];
      try reflexivity; [intros E'; now symmetry in E' | discriminate Hmsg].
Qed.

End TurnOrder.

(** ** The collection: lookups after a save *)
Module StoreFacts.
Import Model.

Lemma findById_id (db : Store) (id : nat) (g : Game) :
  findById db id = Some g -> _id g = id.
Proof.
  unfold findById. intros H. apply find_some in H as [_ H].
  now apply Nat.eqb_eq in H.
Qed.

Lemma findById_In (db : Store) (id : nat) (g : Game) :
  findById db id = Some g -> In g db.
Proof. unfold findById. intros H. now apply find_some in H. Qed.

Lemma findById_upsert (db : Store) (g : Game) (id : nat) :
  findById (upsert db g) id =
  if Nat.eqb (_id g) id then Some g else findById db id.
Proof.
  unfold findById. induction db as [| d db IH]; simpl.
  - reflexivity.
  - destruct (Nat.eqb_spec (_id d) (_id g)) as [E | E]; simpl.
    + rewrite E. now destruct (Nat.eqb (_id g) id).
    + destruct (Nat.eqb_spec (_id d) id) as [E' | E'].
      * subst id. destruct (Nat.eqb_spec (_id g) (_id d)); congruence.
      * exact IH.
Qed.

Lemma preSave_id (now : Z) (g : Game) : _id (preSave now g) = _id g.
Proof. unfold preSave. now destruct (_ && _). Qed.

Lemma preSave_not_pending (now : Z) (g : Game) :
  status g <> pending -> preSave now g = g.
Proof.
  intros H. unfold preSave, isExpired.
  destruct (status g); simpl; congruence.
Qed.

Lemma save_Some (enforce : bool) (now : Z) (db db' : Store) (g g' : Game) :
  save enforce now db g = Some (g', db') ->
  g' = preSave now g /\ db' = upsert db g'.
Proof.
  unfold save. destruct (enforce && _); [discriminate |].
  intros H. injection H as <- <-. now split.
Qed.

End StoreFacts.

(** ** Status transitions *)
Module Transitions.
Import Model Lifecycle StoreFacts Scenario.

Lemma Status_eqb_eq (a b : Status) : Status_eqb a b = true <-> a = b.
Proof. destruct a, b; simpl; split; congruence. Qed.

Lemma Status_eqb_neq (a b : Status) : Status_eqb a b = false <-> a <> b.
Proof. destruct a, b; simpl; split; congruence. Qed.

Lemma callNumber_keeps (g : Game) (n : Z) (who : ObjectId) :
  _id (snd (callNumber g n who)) = _id g /\
  status (snd (callNumber g n who)) = status g.
Proof. unfold callNumber. now destruct (negb _). Qed.

Lemma evaluate_keeps (now : Z) (g g' : Game) (w : option ObjectId) :
  Routes.evaluate now g = Some (g', w) ->
  _id g' = _id g /\ (status g' = status g \/ status g' = completed).
Proof.
  unfold Routes.evaluate.
  destruct (checkWinCondition g (creatorBoard _) _) as [cw |]; [| discriminate].
  destruct (checkWinCondition g (opponentBoard _) _) as [ow |]; [| discriminate].
  simpl. intros H. injection H as <- <-.
  destruct (Routes.pickWinner _ _ _); simpl; auto.
Qed.

(** The effect of one operation other than 'respond-to-invitation': the
    collection is untouched, or exactly one document is rewritten in place
    with a status the code's transition table allows. *)
Lemma step_effect (enforce : bool) (now : Z) (db : Store) (op : Op) :
  isRespond op = false ->
  step enforce now db op = db \/
  exists g g',
    findById db (_id g) = Some g /\ _id g' = _id g /\
    step enforce now db op = upsert db g' /\
    stepAllowed g (_id g) op (status g').
Proof.
  intros Hop. destruct op as [me id | me id acc | me id | me id | me id p
                             | me id n]; try discriminate Hop; simpl.
  - (* join *)
    unfold Routes.joinGame.
    destruct (findById db id) as [game |] eqn:Hf; [| now left].
    destruct (canJoin now game me) eqn:Hj; simpl; [| now left].
    destruct (save _ _ _ _) as [[g' db'] |] eqn:Hs; [| now left].
    apply save_Some in Hs as [Hg' Hdb'].
    rewrite preSave_not_pending in Hg' by (simpl; discriminate).
    right. exists game, g'. subst g'. simpl.
    rewrite (findById_id _ _ _ Hf). repeat split; try assumption.
    unfold canJoin in Hj. apply andb_prop in Hj as [Hj _].
    apply andb_prop in Hj as [Hj _]. apply Status_eqb_eq in Hj.
    left. now rewrite Hj.
  - (* decline *)
    unfold Routes.declineGame.
    destruct (findById db id) as [game |] eqn:Hf; [| now left].
    destruct (Nat.eqb (opponent game) me); simpl; [| now left].
    destruct (Status_eqb (status game) pending) eqn:Hp; simpl; [| now left].
    destruct (save _ _ _ _) as [[g' db'] |] eqn:Hs; [| now left].
    apply save_Some in Hs as [Hg' Hdb'].
    rewrite preSave_not_pending in Hg' by (simpl; discriminate).
    right. exists game, g'. subst g'. simpl.
    rewrite (findById_id _ _ _ Hf). repeat split; try assumption.
    apply Status_eqb_eq in Hp. left. now rewrite Hp.
  - (* cancel *)
    unfold Routes.cancelGame.
    destruct (findById db id) as [game |] eqn:Hf; [| now left].
    destruct (Nat.eqb_spec (creator game) me) as [Hme | Hme]; simpl;
      [| now left].
    destruct (Status_eqb (status game) completed) eqn:Hp; simpl; [now left |].
    destruct (save _ _ _ _) as [[g' db'] |] eqn:Hs; [| now left].
    apply save_Some in Hs as [Hg' Hdb'].
    rewrite preSave_not_pending in Hg' by (simpl; discriminate).
    right. exists game, g'. subst g'. simpl.
    rewrite (findById_id _ _ _ Hf). repeat split; try assumption.
    apply Status_eqb_neq in Hp. unfold stepAllowed.
    destruct (status game) eqn:Hst;
      [left; reflexivity | right | congruence | left; reflexivity].
    split; [reflexivity |]. split; [reflexivity |]. now rewrite Hme.
  - (* call-number, REST *)
    unfold Routes.callNumberRoute.
    destruct (findById db id) as [game |] eqn:Hf; [| now left].
    destruct (Status_eqb (status game) active) eqn:Hp; simpl; [| now left].
    destruct (isUserTurn game me); simpl; [| now left].
    destruct (Routes.invalidNumber p); [now left |].
    pose proof (callNumber_keeps game (Routes.payloadNumber p) me) as [Hid Hst].
    destruct (callNumber game (Routes.payloadNumber p) me) as [called g1].
    simpl in Hid, Hst.
    destruct called; simpl; [| now left].
    destruct (Routes.evaluate now g1) as [[g2 w] |] eqn:He; [| now left].
    apply evaluate_keeps in He as [Hid2 Hst2].
    apply Status_eqb_eq in Hp.
    destruct (save _ _ _ _) as [[g' db'] |] eqn:Hs; [| now left].
    apply save_Some in Hs as [Hg' Hdb'].
    rewrite preSave_not_pending in Hg'
      by (destruct Hst2 as [-> | ->]; congruence).
    right. exists game, g'. subst g'. simpl.
    rewrite (findById_id _ _ _ Hf). repeat split; try assumption.
    + rewrite Hid2, Hid. now apply findById_id in Hf.
    + left. rewrite Hp.
      destruct Hst2 as [-> | ->]; [rewrite Hst, Hp |]; reflexivity.
  - (* call-number, socket *)
    unfold Sockets.callNumberHandler.
    destruct (findById db id) as [game |] eqn:Hf; [| now left].
    destruct (Status_eqb (status game) active) eqn:Hp; simpl; [| now left].
    destruct (isUserTurn game me); simpl; [| now left].
    pose proof (callNumber_keeps game n me) as [Hid Hst].
    destruct (callNumber game n me) as [called g1]. simpl in Hid, Hst.
    destruct called; simpl; [| now left].
    apply Status_eqb_eq in Hp.
    destruct (save _ _ _ _) as [[g' db'] |] eqn:Hs; [| now left].
    apply save_Some in Hs as [Hg' Hdb'].
    rewrite preSave_not_pending in Hg' by congruence.
    right. exists game, g'. subst g'. simpl.
    rewrite (findById_id _ _ _ Hf). repeat split; try assumption.
    + rewrite Hid. now apply findById_id in Hf.
    + left. rewrite Hst, Hp. reflexivity.
Qed.

Lemma specTransition_refl (s : Status) : specTransition s s = true.
Proof. now destruct s. Qed.

Lemma stepAllowed_code (g : Game) (id : nat) (op : Op) (s' : Status) :
  stepAllowed g id op s' -> codeTransition (status g) s' = true.
Proof.
  unfold codeTransition. intros [H | (Ha & -> & _)].
  - now rewrite H.
  - rewrite Ha. reflexivity.
Qed.

Lemma step_status (enforce : bool) (now : Z) (db : Store) (op : Op)
  (id : nat) (g : Game) :
  isRespond op = false ->
  findById db id = Some g ->
  exists g', findById (step enforce now db op) id = Some g' /\
             stepAllowed g id op (status g').
Proof.
  intros Hop Hf.
  destruct (step_effect enforce now db op Hop)
    as [-> | (g0 & g1 & Hf0 & Hid & -> & Ht)].
  - exists g. split; [assumption | left; apply specTransition_refl].
  - rewrite findById_upsert. rewrite Hid.
    destruct (Nat.eqb_spec (_id g0) id) as [E | E].
    + exists g1. split; [reflexivity |].
      rewrite E in Hf0, Ht. rewrite Hf in Hf0. injection Hf0 as <-. exact Ht.
    + exists g. split; [assumption | left; apply specTransition_refl].
Qed.

Lemma reachable_step (a b c : Status) :
  reachable a b = true -> codeTransition b c = true -> reachable a c = true.
Proof. destruct a, b, c; cbv; intros; congruence. Qed.

Lemma run_status (enforce : bool) (ops : list (Z * Op)) :
  forall (db : Store) (id : nat) (g : Game),
    forallb (fun o => negb (isRespond (snd o))) ops = true ->
    findById db id = Some g ->
    exists g', findById (run enforce db ops) id = Some g' /\
               reachable (status g) (status g') = true.
Proof.
  induction ops as [| [now op] ops IH] using rev_ind; intros db id g Hall Hf.
  - exists g. split; [assumption | now destruct (status g)].
  - rewrite forallb_app in Hall. apply andb_prop in Hall as [Hall Hop].
    simpl in Hop. rewrite andb_true_r in Hop. apply negb_true_iff in Hop.
    destruct (IH db id g Hall Hf) as (g1 & Hf1 & Hr1).
    unfold run. rewrite fold_left_app. simpl. fold (run enforce db ops).
    destruct (step_status enforce now (run enforce db ops) op id g1 Hop Hf1)
      as (g2 & Hf2 & Ht2).
    exists g2. split; [assumption |].
    apply reachable_step with (status g1); [assumption |].
    now apply stepAllowed_code with id op.
Qed.

Lemma run_snoc (enforce : bool) (db : Store) (ops : list (Z * Op))
  (now : Z) (op : Op) :
  run enforce db (ops ++ [(now, op)]) = step enforce now (run enforce db ops) op.
Proof. unfold run. now rewrite fold_left_app. Qed.

(** C5 (as amended).  For the REST operations join, decline, cancel and
    call-number (which also ends the game) and the 'call-number' socket
    handler, in every sequence of them: each operation takes a stored
    session's status from pending only to active or cancelled, from
    active only to completed, or to cancelled when the operation is the
    cancel route called by the session's creator for that session, and
    never changes a completed or cancelled status; hence a completed
    session stays completed, a cancelled one stays cancelled, and an
    active one never becomes pending again. *)
Theorem status_transitions_by_code :
  forall (enforce : bool) (db : Store) (id : nat) (g : Game),
    findById db id = Some g ->
    (forall (before : list (Z * Op)) (now : Z) (op : Op),
        forallb (fun o => negb (isRespond (snd o))) before = true ->
        isRespond op = false ->
        exists g1 g2,
          findById (run enforce db before) id = Some g1 /\
          reachable (status g) (status g1) = true /\
          findById (run enforce db (before ++ [(now, op)])) id = Some g2 /\
          stepAllowed g1 id op (status g2)) /\
    (forall ops : list (Z * Op),
        forallb (fun o => negb (isRespond (snd o))) ops = true ->
        nonTerminal (status g) = false ->
        exists g', findById (run enforce db ops) id = Some g' /\
                   status g' = status g).
Proof.
  intros enforce db id g Hf. split.
  - intros before now op Hall Hop.
    destruct (run_status enforce before db id g Hall Hf) as (g1 & Hf1 & Hr1).
    destruct (step_status enforce now (run enforce db before) op id g1
                Hop Hf1) as (g2 & Hf2 & Ht2).
    exists g1, g2. rewrite run_snoc. auto.
  - intros ops Hall Hterm.
    destruct (run_status enforce ops db id g Hall Hf) as (g' & Hf' & Hr).
    exists g'. split; [assumption |].
    destruct (status g), (status g'); simpl in *; congruence.
Qed.

(** An active session: after a recorded call it is still active, and the
    creator's cancel then takes it to cancelled, the one transition added
    to the specification's table; a completed session stays completed
    under join, call-number, cancel and decline. *)
Lemma status_transitions_by_code_witness :
  (exists g1 g2,
      findById (run true [activeGame [7] opponentTurn 5]
                    [(20, CallNumberRest 2%nat 100 (PNumber 8))]) 100
        = Some g1 /\
      reachable (status (activeGame [7] opponentTurn 5)) (status g1) = true /\
      findById (run true [activeGame [7] opponentTurn 5]
                    ([(20, CallNumberRest 2%nat 100 (PNumber 8))]
                       ++ [(30, Cancel 1%nat 100)])) 100 = Some g2 /\
      stepAllowed g1 100 (Cancel 1%nat 100) (status g2)) /\
  option_map status
    (findById (run true [activeGame [7] opponentTurn 5]
                   [(20, CallNumberRest 2%nat 100 (PNumber 8))]) 100)
    = Some active /\
  option_map status
    (findById (run true [activeGame [7] opponentTurn 5]
                   [(20, CallNumberRest 2%nat 100 (PNumber 8));
                    (30, Cancel 1%nat 100)]) 100)
    = Some cancelled /\
  (exists g',
      findById (run true [endGame 50 (activeGame [7] opponentTurn 5) 1%nat]
                    [(60, Join 2%nat 100);
                     (70, CallNumberRest 2%nat 100 (PNumber 8));
                     (80, Cancel 1%nat 100);
                     (90, Decline 2%nat 100)]) 100 = Some g' /\
      status g' = status (endGame 50 (activeGame [7] opponentTurn 5) 1%nat)).
Proof.
  destruct (status_transitions_by_code true [activeGame [7] opponentTurn 5]
              100%nat (activeGame [7] opponentTurn 5) eq_refl)
    as [Hstep _].
  destruct (status_transitions_by_code true
              [endGame 50 (activeGame [7] opponentTurn 5) 1%nat] 100%nat
              (endGame 50 (activeGame [7] opponentTurn 5) 1%nat) eq_refl)
    as [_ Hterm].
  split; [apply Hstep; reflexivity |].
  split; [reflexivity |]. split; [reflexivity |].
  apply Hterm; reflexivity.
Defined.

(** C5 (as stated) fails: the cancel route only refuses completed
    sessions, so the creator takes an active session to cancelled, a
    transition the specification's table does not have. *)
Lemma cancel_takes_active_to_cancelled :
  option_map status
    (findById (step false 5 [activeGame [7] opponentTurn 5]
                    (Cancel 1%nat 100)) 100) = Some cancelled /\
  specTransition (status (activeGame [7] opponentTurn 5)) cancelled = false.
Proof. split; reflexivity. Qed.

(** The 'respond-to-invitation' handler checks no status at all: the
    designated opponent can re-activate a completed session. *)
Lemma respond_reopens_completed :
  let done := endGame 50 (activeGame [7] opponentTurn 5) 1%nat in
  status done = completed /\
  option_map status
    (findById (step false 60 [done] (RespondToInvitation 2%nat 100 true)) 100)
    = Some active.
Proof. split; reflexivity. Qed.

End Transitions.

(** ** Creating a game *)
Module Create.
Import Model Scenario.

Lemma existingGame_found (db : Store) (me o : ObjectId) (d : Game) :
  In d db ->
  nonTerminal (status d) = true ->
  (creator d = me /\ opponent d = o) \/ (creator d = o /\ opponent d = me) ->
  exists e, Routes.existingGame db me o = Some e.
Proof.
  intros Hin Hnt Hpair. unfold Routes.existingGame.
  match goal with |- exists e, find ?f db = Some e =>
    destruct (find f db) as [e |] eqn:E end.
  - now exists e.
  - apply (find_none _ _ E) in Hin. simpl in Hin. rewrite Hnt in Hin.
    destruct Hpair as [[H1 H2] | [H1 H2]];
      rewrite H1, H2, !Nat.eqb_refl in Hin; simpl in Hin;
      rewrite ?orb_true_r in Hin; discriminate.
Qed.

(** C6 (as amended).  A create request that names an opponent who exists
    as a user is answered with the conflict error (400, "There is already
    an active game with this opponent") whenever a pending or active
    session exists between the requester and that opponent, in either
    creator/opponent order, and the collection is left as it was. *)
Theorem create_conflict_when_opponent_named :
  forall (enforce : bool) (rnd : nat -> Routes.Draw) (now : Z)
         (users : list ObjectId) (db : Store) (me o : ObjectId)
         (body : Routes.CreateBody) (d : Game),
    Routes.opponentId body = Some o ->
    In o users ->
    In d db ->
    nonTerminal (status d) = true ->
    (creator d = me /\ opponent d = o) \/ (creator d = o /\ opponent d = me) ->
    Routes.createGame enforce rnd now users db me body
      = (Routes.Err 400 "There is already an active game with this opponent",
         db).
Proof.
  intros enforce rnd now users db me o body d Hopp Huser Hin Hnt Hpair.
  unfold Routes.createGame. rewrite Hopp.
  assert (Hex : existsb (Nat.eqb o) users = true).
  { apply existsb_exists. exists o. split; [assumption | apply Nat.eqb_refl]. }
  rewrite Hex. simpl.
  destruct (existingGame_found db me o d Hin Hnt Hpair) as [e ->].
  reflexivity.
Qed.

Lemma create_conflict_when_opponent_named_witness :
  Routes.createGame true zeroDraws 5 [1%nat; 2%nat] [pendingGame] 2%nat
                    (Routes.mkCreateBody (Some 1%nat) None)
    = (Routes.Err 400 "There is already an active game with this opponent",
       [pendingGame]).
Proof.
  apply (create_conflict_when_opponent_named true zeroDraws 5
           [1%nat; 2%nat] [pendingGame] 2%nat 1%nat
           (Routes.mkCreateBody (Some 1%nat) None) pendingGame).
  - reflexivity.
  - simpl. left. reflexivity.
  - simpl. left. reflexivity.
  - reflexivity.
  - right. split; reflexivity.
Defined.

(** C6 (as stated) fails for solo requests: the lookup for an existing
    session sits under [if (opponentId)], so with an active solo session
    of user 1 in the collection, a further solo request by user 1 creates
    a second session between the same two participants (1 and 1), whether
    or not the store enforces the unique index. *)
Lemma solo_create_skips_conflict_check :
  nonTerminal (status soloGame) = true /\
  creator soloGame = 1%nat /\ opponent soloGame = 1%nat /\
  forall enforce : bool,
    exists g,
      Routes.createGame enforce zeroDraws 5 [1%nat] [soloGame] 1%nat
                        (Routes.mkCreateBody None (Some solo))
        = (Routes.Ok 201 "Game created successfully" g, [soloGame; g]) /\
      creator g = 1%nat /\ opponent g = 1%nat /\ status g = pending.
Proof.
  repeat split.
  intros enforce. eexists. destruct enforce; vm_compute; repeat split.
Qed.

End Create.

(** ** Invitation expiry *)
Module Expiry.
Import Model Scenario.

(** The middleware cancels an expired pending document when it is saved. *)
Lemma preSave_cancels_expired (now : Z) (g : Game) :
  isExpired now g = true -> status (preSave now g) = cancelled.
Proof.
  intros H. unfold preSave. rewrite H.
  unfold isExpired in H. apply andb_prop in H as [H _]. now rewrite H.
Qed.

(** The join route turns an expired invitation down without writing
    anything: the session is neither activated nor cancelled. *)
Lemma join_rejects_expired (enforce : bool) (now : Z) (db : Store)
  (me : ObjectId) (gameId : nat) (game : Game) :
  findById db gameId = Some game ->
  isExpired now game = true ->
  Routes.joinGame enforce now db me gameId
    = (Routes.Err 400 "Cannot join this game", db).
Proof.
  intros Hf He. unfold Routes.joinGame. rewrite Hf.
  unfold canJoin. rewrite He. simpl. now rewrite andb_false_r.
Qed.

(** C7 (as amended).  For a pending session whose invitation expiry has
    passed, an accept through the join route is rejected ("Cannot join
    this game") instead of activating the session, and nothing is written:
    the session is left as it is.  It is the pre-save middleware that
    cancels such a session, at the moment it is saved while still
    pending. *)
Theorem expired_invitation_join_rejected :
  forall (enforce : bool) (now : Z) (db : Store) (me : ObjectId)
         (gameId : nat) (game : Game),
    findById db gameId = Some game ->
    status game = pending ->
    invitationExpiresAt game < now ->
    Routes.joinGame enforce now db me gameId
      = (Routes.Err 400 "Cannot join this game", db) /\
    status (preSave now game) = cancelled /\
    (forall g' db',
        save enforce now db game = Some (g', db') ->
        status g' = cancelled /\ findById db' gameId = Some g').
Proof.
  intros enforce now db me gameId game Hf Hp Hlt.
  assert (He : isExpired now game = true).
  { unfold isExpired. rewrite Hp. simpl. now apply Z.ltb_lt. }
  split; [now apply join_rejects_expired with game |].
  split; [now apply preSave_cancels_expired |].
  intros g' db' Hs. apply StoreFacts.save_Some in Hs as [-> ->]. split.
  - now apply preSave_cancels_expired.
  - rewrite StoreFacts.findById_upsert, StoreFacts.preSave_id.
    rewrite (StoreFacts.findById_id _ _ _ Hf). now rewrite Nat.eqb_refl.
Qed.

Lemma expired_invitation_join_rejected_witness :
  Routes.joinGame true (invitationWindow + 1) [pendingGame] 2%nat 100
    = (Routes.Err 400 "Cannot join this game", [pendingGame]) /\
  status (preSave (invitationWindow + 1) pendingGame) = cancelled /\
  (forall g' db',
      save true (invitationWindow + 1) [pendingGame] pendingGame
        = Some (g', db') ->
      status g' = cancelled /\ findById db' 100 = Some g').
Proof.
  apply (expired_invitation_join_rejected true (invitationWindow + 1)
           [pendingGame] 2%nat 100%nat pendingGame).
  - reflexivity.
  - reflexivity.
  - vm_compute. reflexivity.
Defined.

(** C7 (as stated) fails: one millisecond after the expiry of
    [pendingGame] the opponent's join is an access to the session, it is
    turned down, and the stored session is still pending, not cancelled. *)
Lemma expired_join_leaves_session_pending :
  invitationExpiresAt pendingGame = invitationWindow /\
  isExpired (invitationWindow + 1) pendingGame = true /\
  forall enforce : bool,
    fst (Routes.joinGame enforce (invitationWindow + 1) [pendingGame]
                         2%nat 100)
      = Routes.Err 400 "Cannot join this game" /\
    option_map status
      (findById (snd (Routes.joinGame enforce (invitationWindow + 1)
                                      [pendingGame] 2%nat 100)) 100)
      = Some pending.
Proof.
  split; [reflexivity |]. split; [reflexivity |].
  intros []; split; reflexivity.
Qed.

(** The 'respond-to-invitation' handler never consults the expiry: on the
    same expired session the opponent's acceptance activates it. *)
Lemma respond_accepts_expired_invitation :
  isExpired (invitationWindow + 1) pendingGame = true /\
  (forall enforce : bool,
      Sockets.respondToInvitation enforce (invitationWindow + 1)
                                  [pendingGame] 2%nat 100 true
        = (Sockets.Emitted "game-started"
             (Routes.activate (invitationWindow + 1) pendingGame),
           [Routes.activate (invitationWindow + 1) pendingGame])) /\
  status (Routes.activate (invitationWindow + 1) pendingGame) = active.
Proof.
  split; [reflexivity |].
  split; [intros []; reflexivity | reflexivity].
Qed.

End Expiry.

(** ** Winner determination on the call-number route *)
Module Winner.
Import Model Scenario.




End Winner.

(** ** Number validation on the two call paths *)
Module Validation.
Import Scenario.

Lemma rest_invalid_iff (p : Payload) :
  Routes.invalidNumber p = false <-> between 1 25 p.
Proof.
  destruct p as [n |]; simpl.
  - rewrite orb_false_iff, !Z.ltb_ge. lia.
  - split; [discriminate | tauto].
Qed.

Lemma realtime_invalid_iff (p : Payload) :
  Realtime.invalidNumber p = false <-> between 1 75 p.
Proof.
  destruct p as [n |]; simpl.
  - rewrite !orb_false_iff, !Z.ltb_ge, Z.eqb_neq. lia.
  - split; [discriminate | tauto].
Qed.





End Validation.

(** ** Board generation *)
Module BoardGen.
Import Scenario.

Lemma randomIndex_le (d : Routes.Draw) (i : nat) :
  (Routes.randomIndex d i <= i)%nat.
Proof.
  unfold Routes.randomIndex.
  apply Nat.lt_succ_r. apply Nat.Div0.div_lt_upper_bound. nia.
Qed.

Lemma length_setNth (a : list Z) :
  forall i v, List.length (Routes.setNth a i v) = List.length a.
Proof.
  induction a as [| x a IH]; intros [| i] v; simpl; auto.
Qed.

Lemma nth_error_setNth (a : list Z) :
  forall i v n,
    nth_error (Routes.setNth a i v) n =
    if Nat.eqb n i
    then match nth_error a i with Some _ => Some v | None => None end
    else nth_error a n.
Proof.
  induction a as [| x a IH]; intros i v n.
  - simpl. destruct i, n; simpl; try reflexivity.
    now destruct (Nat.eqb n i).
  - destruct i as [| i], n as [| n]; simpl; try reflexivity. apply IH.
Qed.

Lemma length_swap (a : list Z) (i j : nat) :
  List.length (Routes.swap a i j) = List.length a.
Proof. unfold Routes.swap. now rewrite !length_setNth. Qed.

(** Exchanging two positions inside the array permutes it. *)
Lemma swap_Permutation (a : list Z) (i j : nat) :
  (i < List.length a)%nat -> (j < List.length a)%nat ->
  Permutation (Routes.swap a i j) a.
Proof.
  intros Hi Hj. apply Permutation_sym. apply Permutation_nth_error. split.
  - now rewrite length_swap.
  - exists (fun n => if Nat.eqb n j then i else if Nat.eqb n i then j else n).
    split.
    + intros x y.
      destruct (Nat.eqb_spec x j), (Nat.eqb_spec x i),
               (Nat.eqb_spec y j), (Nat.eqb_spec y i); congruence.
    + intros n. unfold Routes.swap.
      rewrite nth_error_setNth.
      destruct (Nat.eqb_spec n j) as [-> | Hnj].
      * rewrite nth_error_setNth.
        rewrite (nth_error_nth' a 0 Hi), (nth_error_nth' a 0 Hj).
        now destruct (Nat.eqb j i).
      * rewrite nth_error_setNth.
        destruct (Nat.eqb_spec n i) as [-> | Hni]; [| reflexivity].
        now rewrite (nth_error_nth' a 0 Hi), (nth_error_nth' a 0 Hj).
Qed.

(** The shuffle loop only ever exchanges positions inside the array. *)
Lemma shuffle_Permutation (rnd : nat -> Routes.Draw) (i : nat) :
  forall k a, (i < List.length a)%nat ->
              Permutation (Routes.shuffle rnd k i a) a.
Proof.
  induction i as [| i IH]; intros k a Hi; simpl.
  - apply Permutation_refl.
  - pose proof (randomIndex_le (rnd k) (S i)) as Hj.
    eapply Permutation_trans.
    + apply IH. rewrite length_swap. lia.
    + apply swap_Permutation; lia.
Qed.

(** How the board loops lay out an array of 24 numbers. *)
Lemma buildBoard_layout (s : list Z) :
  List.length s = 24%nat ->
  List.length (Routes.buildBoard s fiveIndices 0) = 5%nat /\
  Forall (fun r => List.length r = 5%nat) (Routes.buildBoard s fiveIndices 0) /\
  centerCell (Routes.buildBoard s fiveIndices 0) = Free /\
  otherCells (Routes.buildBoard s fiveIndices 0) = map Num s.
Proof.
  intros Hlen.
  do 24 (destruct s as [| ? s]; [discriminate Hlen |]).
  destruct s; [| discriminate Hlen].
  cbv. repeat split; repeat constructor.
Qed.

Lemma allNumbers_facts :
  List.length Routes.allNumbers = 24%nat /\
  NoDup Routes.allNumbers /\
  Forall (fun n => 1 <= n <= 25 /\ n <> 13) Routes.allNumbers.
Proof.
  split; [reflexivity |]. split.
  - unfold Routes.allNumbers. apply NoDup_filter.
    apply Finite.Injective_map_NoDup; [| apply seq_NoDup].
    intros x y Hxy. now apply Nat2Z.inj.
  - unfold Routes.allNumbers. apply Forall_forall. intros n Hin.
    apply filter_In in Hin as [Hin Hne].
    apply in_map_iff in Hin as (k & <- & Hk). apply in_seq in Hk.
    apply negb_true_iff, Z.eqb_neq in Hne. lia.
Qed.

(** C10.  Whatever [Math.random] returns, the generated board has five
    rows of five cells, its centre cell is FREE, and its 24 other cells
    are numbers: a rearrangement of 1..25 without 13, hence pairwise
    distinct, within 1..25, never 13 and never FREE. *)
Theorem generateBingoBoard_shape :
  forall rnd : nat -> Routes.Draw,
    let b := Routes.generateBingoBoard rnd in
    List.length b = 5%nat /\
    Forall (fun r => List.length r = 5%nat) b /\
    centerCell b = Free /\
    NoDup (otherCells b) /\
    ~ In Free (otherCells b) /\
    ~ In (Num 13) (otherCells b) /\
    exists s,
      otherCells b = map Num s /\
      List.length s = 24%nat /\
      NoDup s /\
      Forall (fun n => 1 <= n <= 25 /\ n <> 13) s /\
      Permutation s Routes.allNumbers.
Proof.
  intros rnd b. unfold b, Routes.generateBingoBoard.
  destruct allNumbers_facts as (Hlen & Hnd & Hrange).
  set (s := Routes.shuffle rnd 0 (List.length Routes.allNumbers - 1)
                           Routes.allNumbers).
  assert (Hperm : Permutation s Routes.allNumbers).
  { apply shuffle_Permutation. rewrite Hlen. lia. }
  assert (Hlens : List.length s = 24%nat).
  { now rewrite (Permutation_length Hperm). }
  assert (Hnds : NoDup s).
  { apply Permutation_NoDup with Routes.allNumbers;
      [now apply Permutation_sym | assumption]. }
  assert (Hranges : Forall (fun n => 1 <= n <= 25 /\ n <> 13) s).
  { apply Permutation_Forall with Routes.allNumbers;
      [now apply Permutation_sym | assumption]. }
  destruct (buildBoard_layout s Hlens) as (H5 & Hrows & Hc & Hothers).
  split; [exact H5 |]. split; [exact Hrows |]. split; [exact Hc |].
  rewrite Hothers. split; [| split; [| split]].
  - apply Finite.Injective_map_NoDup; [| assumption].
    intros x y Hxy. now injection Hxy.
  - intros Hin. apply in_map_iff in Hin as (x & Hx & _). discriminate Hx.
  - intros Hin. apply in_map_iff in Hin as (x & Hx & Hin).
    injection Hx as ->. rewrite Forall_forall in Hranges.
    apply Hranges in Hin. lia.
  - exists s. repeat split; assumption.
Qed.

(** One concrete run, every draw being 0. *)
Example generateBingoBoard_zeroDraws :
  Routes.generateBingoBoard zeroDraws =
  [ [Num 2;  Num 3;  Num 4;  Num 5;  Num 6];
    [Num 7;  Num 8;  Num 9;  Num 10; Num 11];
    [Num 12; Num 14; Free;   Num 15; Num 16];
    [Num 17; Num 18; Num 19; Num 20; Num 21];
    [Num 22; Num 23; Num 24; Num 25; Num 1] ].
Proof. reflexivity. Qed.

End BoardGen.

(** ** Further properties of the model's methods *)
Module ModelFacts.
Import Model Scenario Measures.

Lemma isUserTurn_spec :
  forall (g : Game) (u : ObjectId),
    isUserTurn g u = true <-> status g = active /\ u = currentTurnUser g.
Proof.
  intros g u. unfold isUserTurn, currentTurnUser.
  destruct (status g); simpl;
    try (split; [discriminate | intros [H _]; discriminate H]).
  destruct (currentTurn (gameData g)); simpl;
    rewrite ?andb_true_r, ?andb_false_r; simpl.
  - destruct (Nat.eqb_spec (creator g) u) as [E | E]; split; intros H;
      try discriminate; auto.
    destruct H as [_ H]. now symmetry in H.
  - destruct (Nat.eqb_spec (opponent g) u) as [E | E]; split; intros H;
      try discriminate; auto.
    destruct H as [_ H]. now symmetry in H.
Qed.


(** X1.  [isUserTurn] answers true for exactly one user, the participant
    the turn pointer designates, and only while the session is active. *)
Theorem isUserTurn_iff_designated :
  forall (g : Game) (u : ObjectId),
    isUserTurn g u = true <-> status g = active /\ u = currentTurnUser g.
Proof. exact isUserTurn_spec. Qed.

(** X2.  [getOpponent] maps each participant to the other one, so applying
    it twice to a participant gives that participant back; for anyone
    else it answers the creator. *)
Theorem getOpponent_participants :
  forall (g : Game) (u : ObjectId),
    (isParticipant g u -> getOpponent g (getOpponent g u) = u) /\
    (isParticipant g u -> isParticipant g (getOpponent g u)) /\
    (~ isParticipant g u -> getOpponent g u = creator g).
Proof.
  intros g u. unfold getOpponent, isParticipant.
  destruct (Nat.eqb_spec (creator g) u) as [E | E].
  - repeat split.
    + intros _. destruct (Nat.eqb_spec (creator g) (opponent g)); congruence.
    + intros _. now right.
    + intros H. exfalso. apply H. now left.
  - repeat split.
    + intros [H | H]; [contradiction |].
      now rewrite Nat.eqb_refl.
    + intros _. now left.
Qed.

Lemma getOpponent_participants_witness :
  getOpponent (activeGame [] creatorTurn 5)
              (getOpponent (activeGame [] creatorTurn 5) 2%nat) = 2%nat /\
  isParticipant (activeGame [] creatorTurn 5)
                (getOpponent (activeGame [] creatorTurn 5) 2%nat) /\
  getOpponent (activeGame [] creatorTurn 5) 9%nat = 1%nat.
Proof.
  destruct (getOpponent_participants (activeGame [] creatorTurn 5) 2%nat)
    as (H1 & H2 & _).
  destruct (getOpponent_participants (activeGame [] creatorTurn 5) 9%nat)
    as (_ & _ & H3).
  split; [apply H1; right; reflexivity |].
  split; [apply H2; right; reflexivity |].
  apply H3. intros [H | H]; discriminate H.
Defined.

(** X3.  A session made by [new Game] at time [t0] can be joined by its
    two participants, and by nobody else, up to and including the instant
    24 hours later; from the next millisecond on [canJoin] is false. *)
Theorem canJoin_window_of_new_game :
  forall (t0 t : Z) (id : nat) (me other u : ObjectId) (gt : GameType)
         (board : Board),
    canJoin t (Routes.newGame t0 id me other gt board) u = true <->
    t <= t0 + invitationWindow /\ (u = me \/ u = other).
Proof.
  intros t0 t id me other u gt board.
  unfold canJoin, isExpired, Routes.newGame. simpl.
  rewrite andb_true_iff, negb_true_iff, Z.ltb_ge, orb_true_iff, !Nat.eqb_eq.
  intuition congruence.
Qed.

(** X4.  The history is append-only and records each called number once:
    after any sequence of [callNumber] invocations the old history is a
    prefix of the new one, and a number is in the new history exactly when
    it was there before or was called in the sequence. *)
Theorem runCalls_history_grows :
  forall (calls : list (Z * ObjectId)) (g : Game),
    (exists added, history (runCalls g calls) = history g ++ added) /\
    (forall n, In n (history (runCalls g calls)) <->
               In n (history g) \/ In n (map fst calls)).
Proof.
  induction calls as [| [n who] calls IH]; intros g; simpl.
  - split; [exists []; now rewrite app_nil_r | intros n; tauto].
  - destruct (IH (snd (callNumber g n who))) as [[added Hadd] Hin].
    pose proof (CallNumber.callNumber_history g n who) as Hh.
    fold (runCalls (snd (callNumber g n who)) calls).
    split.
    + rewrite Hadd, Hh. destruct (includes (history g) n).
      * now exists added.
      * exists (n :: added). now rewrite <- app_assoc.
    + intros m. rewrite Hin, Hh.
      destruct (includes (history g) n) eqn:E.
      * apply includes_In in E. split; [tauto |].
        intros [H | [H | H]]; subst; auto.
      * rewrite in_app_iff. simpl. tauto.
Qed.

Lemma satisfied_mono (c c' : list Z) (cell : Cell) :
  incl c c' -> satisfied c cell = true -> satisfied c' cell = true.
Proof.
  intros Hincl. unfold satisfied. destruct cell as [n | |]; simpl; auto.
  rewrite !includes_In. apply Hincl.
Qed.

Lemma forallb_mono {A : Type} (f f' : A -> bool) (l : list A) :
  (forall x, f x = true -> f' x = true) ->
  forallb f l = true -> forallb f' l = true.
Proof.
  intros H. rewrite !forallb_forall. intros Hl x Hx. apply H. now apply Hl.
Qed.

Lemma countRows_mono (board : Board) (c c' : list Z) (idxs : list nat) :
  incl c c' ->
  forall acc acc' n,
    acc <= acc' ->
    countRows board c idxs acc = Some n ->
    exists n', countRows board c' idxs acc' = Some n' /\ n <= n'.
Proof.
  intros Hincl. induction idxs as [| i idxs IH]; intros acc acc' n Hle H;
    simpl in *.
  - injection H as <-. now exists acc'.
  - destruct (rowOf board i) as [r |]; simpl in *; [| discriminate].
    eapply IH; [| exact H].
    destruct (forallb (satisfied c) r) eqn:E.
    + rewrite (forallb_mono _ (satisfied c') r
                 (fun x => satisfied_mono c c' x Hincl) E).
      lia.
    + destruct (forallb (satisfied c') r); lia.
Qed.

Lemma countCols_mono (board : Board) (c c' : list Z) (js : list nat) :
  incl c c' ->
  forall acc acc', acc <= acc' ->
                   countCols board c js acc <= countCols board c' js acc'.
Proof.
  intros Hincl. induction js as [| j js IH]; intros acc acc' Hle;
    cbn [countCols].
  - assumption.
  - apply IH.
    destruct (forallb (fun row => satisfied c (at_ row j)) board) eqn:E.
    + rewrite (forallb_mono _ (fun row => satisfied c' (at_ row j)) board
                 (fun row => satisfied_mono c c' (at_ row j) Hincl) E).
      lia.
    + destruct (forallb (fun row => satisfied c' (at_ row j)) board); lia.
Qed.

Lemma countRows_upper (board : Board) (c : list Z) (idxs : list nat) :
  forall acc n, countRows board c idxs acc = Some n ->
                n <= acc + Z.of_nat (List.length idxs).
Proof.
  induction idxs as [| i idxs IH]; intros acc n H; simpl in H.
  - injection H as <-. simpl. lia.
  - destruct (rowOf board i) as [r |]; simpl in H; [| discriminate].
    apply IH in H. cbn [List.length]. destruct (forallb _ r); lia.
Qed.

Lemma countCols_upper (board : Board) (c : list Z) (js : list nat) :
  forall acc, countCols board c js acc <= acc + Z.of_nat (List.length js).
Proof.
  induction js as [| j js IH]; intros acc; cbn [countCols List.length].
  - lia.
  - match goal with |- countCols _ _ _ ?a <= _ => specialize (IH a) end.
    destruct (forallb (fun row => satisfied c (at_ row j)) board); lia.
Qed.

Lemma countRows_None_short (board : Board) (c : list Z) :
  (List.length board < 5)%nat ->
  forall acc, countRows board c fiveIndices acc = None.
Proof.
  intros Hlen acc.
  destruct board as [| r0 [| r1 [| r2 [| r3 [| r4 rest]]]]];
    simpl in Hlen; try lia; reflexivity.
Qed.

(** The two diagonal tests on a board with five rows are the conjunction
    of the five cell tests. *)
Lemma diagonals_eq (r0 r1 r2 r3 r4 : list Cell) (rest : Board) (c : list Z) :
  mainDiagonal (r0 :: r1 :: r2 :: r3 :: r4 :: rest) c =
    Some (forallb (satisfied c)
            [at_ r0 0; at_ r1 1; at_ r2 2; at_ r3 3; at_ r4 4]) /\
  antiDiagonal (r0 :: r1 :: r2 :: r3 :: r4 :: rest) c =
    Some (forallb (satisfied c)
            [at_ r0 4; at_ r1 3; at_ r2 2; at_ r3 1; at_ r4 0]).
Proof.
  unfold mainDiagonal, antiDiagonal, cellSatisfied, rowOf.
  cbn [nth_error bind forallb andAlso].
  split.
  - destruct (satisfied c (at_ r0 0)), (satisfied c (at_ r1 1)),
             (satisfied c (at_ r2 2)), (satisfied c (at_ r3 3));
      simpl; rewrite ?andb_true_r; reflexivity.
  - destruct (satisfied c (at_ r0 4)), (satisfied c (at_ r1 3)),
             (satisfied c (at_ r2 2)), (satisfied c (at_ r3 1));
      simpl; rewrite ?andb_true_r; reflexivity.
Qed.

Lemma completedLines_long (board : Board) (c : list Z) :
  (5 <= List.length board)%nat ->
  exists n1 d1 d2,
    countRows board c fiveIndices 0 = Some n1 /\
    mainDiagonal board c = Some d1 /\
    antiDiagonal board c = Some d2 /\
    completedLines board c =
      Some ((if d2 then 1 else 0) + ((if d1 then 1 else 0) +
            countCols board c fiveIndices n1)).
Proof.
  intros Hlen.
  destruct (WinCheck.countRows_total board c fiveIndices) with (acc := 0)
    as [n1 Hn1].
  { intros k Hk. simpl in Hk. lia. }
  destruct board as [| r0 [| r1 [| r2 [| r3 [| r4 rest]]]]];
    simpl in Hlen; try lia.
  destruct (diagonals_eq r0 r1 r2 r3 r4 rest c) as [Hd1 Hd2].
  exists n1. eexists. eexists.
  split; [exact Hn1 |]. split; [exact Hd1 |]. split; [exact Hd2 |].
  unfold completedLines. rewrite Hn1, Hd1, Hd2.
  cbv beta iota zeta delta [bind]. f_equal.
  repeat match goal with
         | |- context [if ?b then _ else _] => destruct b
         end; lia.
Qed.

Lemma completedLines_None_iff (board : Board) (called : list Z) :
  completedLines board called = None <-> (List.length board < 5)%nat.
Proof.
  destruct (Nat.lt_ge_cases (List.length board) 5) as [Hshort | Hlong].
  - split; [auto |]. intros _. unfold completedLines.
    now rewrite (countRows_None_short board called Hshort 0).
  - destruct (completedLines_long board called Hlong)
      as (n1 & d1 & d2 & _ & _ & _ & Heq).
    split; [intros H; congruence | lia].
Qed.

(** X5.  The evaluation throws exactly on a board with fewer than five
    rows; otherwise it counts between 0 and 12 completed lines (five rows,
    five columns, two diagonals). *)
Theorem completedLines_defined_and_bounded :
  forall (board : Board) (called : list Z),
    (completedLines board called = None <-> (List.length board < 5)%nat) /\
    (forall n, completedLines board called = Some n -> 0 <= n <= 12).
Proof.
  intros board called.
  destruct (Nat.lt_ge_cases (List.length board) 5) as [Hshort | Hlong].
  - assert (Hnone : completedLines board called = None).
    { unfold completedLines.
      now rewrite (countRows_None_short board called Hshort 0). }
    split; [tauto |]. intros n H. congruence.
  - destruct (completedLines_long board called Hlong)
      as (n1 & d1 & d2 & Hn1 & _ & _ & Heq).
    split.
    + split; [intros H; congruence | lia].
    + intros n H.
      pose proof (WinCheck.countRows_lower _ _ _ _ _ Hn1) as Hlo.
      pose proof (countRows_upper _ _ _ _ _ Hn1) as Hup.
      pose proof (WinCheck.countCols_lower board called fiveIndices n1) as Hl.
      pose proof (countCols_upper board called fiveIndices n1) as Hu.
      change (Z.of_nat (List.length fiveIndices)) with 5 in Hup, Hu.
      set (k := countCols board called fiveIndices n1) in *.
      rewrite Heq in H. injection H as <-.
      destruct d1, d2; lia.
Qed.

Lemma diagonals_mono (board : Board) (c c' : list Z) (d1 d2 d1' d2' : bool) :
  incl c c' ->
  (5 <= List.length board)%nat ->
  mainDiagonal board c = Some d1 -> antiDiagonal board c = Some d2 ->
  mainDiagonal board c' = Some d1' -> antiDiagonal board c' = Some d2' ->
  (d1 = true -> d1' = true) /\ (d2 = true -> d2' = true).
Proof.
  intros Hincl Hlong H1 H2 H1' H2'.
  destruct board as [| r0 [| r1 [| r2 [| r3 [| r4 rest]]]]];
    simpl in Hlong; try lia.
  destruct (diagonals_eq r0 r1 r2 r3 r4 rest c) as [E1 E2].
  destruct (diagonals_eq r0 r1 r2 r3 r4 rest c') as [E1' E2'].
  assert (F1 : d1 = forallb (satisfied c)
                      [at_ r0 0; at_ r1 1; at_ r2 2; at_ r3 3; at_ r4 4])
    by congruence.
  assert (F2 : d2 = forallb (satisfied c)
                      [at_ r0 4; at_ r1 3; at_ r2 2; at_ r3 1; at_ r4 0])
    by congruence.
  assert (F1' : d1' = forallb (satisfied c')
                       [at_ r0 0; at_ r1 1; at_ r2 2; at_ r3 3; at_ r4 4])
    by congruence.
  assert (F2' : d2' = forallb (satisfied c')
                       [at_ r0 4; at_ r1 3; at_ r2 2; at_ r3 1; at_ r4 0])
    by congruence.
  rewrite F1, F2, F1', F2'.
  split; apply forallb_mono; intros x; now apply satisfied_mono.
Qed.

(** X6.  Calling more numbers never takes a completed line away: with a
    larger set of called numbers the evaluation still succeeds and counts
    at least as many lines, so a board that wins keeps winning. *)
Theorem completedLines_monotone :
  forall (g : Game) (board : Board) (called called' : list Z) (n : Z),
    incl called called' ->
    completedLines board called = Some n ->
    (exists n', completedLines board called' = Some n' /\ n <= n') /\
    (checkWinCondition g board called = Some true ->
     checkWinCondition g board called' = Some true).
Proof.
  intros g board called called' n Hincl Hn.
  assert (Hlong : (5 <= List.length board)%nat).
  { destruct (Nat.lt_ge_cases (List.length board) 5) as [Hs | Hl];
      [| assumption].
    apply (completedLines_None_iff board called) in Hs.
    congruence. }
  assert (Hmono : exists n', completedLines board called' = Some n' /\ n <= n').
  { destruct (completedLines_long board called Hlong)
      as (n1 & d1 & d2 & Hn1 & Hd1 & Hd2 & Heq).
    destruct (completedLines_long board called' Hlong)
      as (n1' & d1' & d2' & Hn1' & Hd1' & Hd2' & Heq').
    eexists. split; [exact Heq' |].
    destruct (countRows_mono board called called' fiveIndices Hincl 0 0 n1
                (Z.le_refl 0) Hn1) as (m & Hm & Hle).
    assert (m = n1') by congruence. subst m.
    pose proof (countCols_mono board called called' fiveIndices Hincl
                  n1 n1' Hle) as Hcols.
    destruct (diagonals_mono board called called' d1 d2 d1' d2' Hincl Hlong
                Hd1 Hd2 Hd1' Hd2') as [M1 M2].
    set (k := countCols board called fiveIndices n1) in *.
    set (k' := countCols board called' fiveIndices n1') in *.
    assert (En : n = (if d2 then 1 else 0) + ((if d1 then 1 else 0) + k))
      by congruence.
    rewrite En.
    destruct d1, d2; try rewrite (M1 eq_refl); try rewrite (M2 eq_refl);
      destruct d1', d2'; lia. }
  split; [exact Hmono |].
  destruct Hmono as (n' & Hn' & Hle).
  unfold checkWinCondition. rewrite Hn, Hn'. simpl.
  intros H. injection H as H. f_equal.
  apply Z.leb_le in H. apply Z.leb_le. lia.
Qed.

Lemma completedLines_monotone_witness :
  (exists n', completedLines orderedBoard (fourRowsCalled ++ [21]) = Some n'
              /\ 4 <= n') /\
  (checkWinCondition (activeGame [] creatorTurn 4) orderedBoard fourRowsCalled
     = Some true ->
   checkWinCondition (activeGame [] creatorTurn 4) orderedBoard
                     (fourRowsCalled ++ [21]) = Some true).
Proof.
  apply (completedLines_monotone (activeGame [] creatorTurn 4) orderedBoard
           fourRowsCalled (fourRowsCalled ++ [21]) 4).
  - intros x Hx. apply in_or_app. now left.
  - reflexivity.
Defined.

End ModelFacts.

(** ** What one operation does to the collection *)
Module StepFacts.
Import Model Lifecycle StoreFacts Scenario Measures.

Lemma upsert_same (db : Store) (g : Game) :
  findById db (_id g) = Some g -> upsert db g = db.
Proof.
  unfold findById. induction db as [| d db IH]; simpl; [discriminate |].
  destruct (Nat.eqb (_id d) (_id g)).
  - intros H. now injection H as ->.
  - intros H. now rewrite IH.
Qed.

Lemma isUserTurn_active (g : Game) (u : ObjectId) :
  isUserTurn g u = true -> status g = active.
Proof. intros H. now apply ModelFacts.isUserTurn_spec in H. Qed.

(** Every operation leaves the collection alone or rewrites, in place,
    the one document it addresses, in one of four ways: activation,
    cancellation, a recorded call (socket), or a recorded call followed by
    the evaluation (REST). *)
Lemma step_frame (enforce : bool) (now : Z) (db : Store) (op : Op) :
  step enforce now db op = db \/
  exists g g',
    findById db (opId op) = Some g /\
    step enforce now db op = upsert db g' /\
    ((g' = Routes.activate now g /\
      (isRespond op = false -> status g = pending)) \/
     (g' = set_status g cancelled /\
      (isRespond op = false -> status g <> completed)) \/
     (exists n who,
         isSocketCall op = true /\
         isUserTurn g who = true /\ ~ In n (history g) /\
         g' = snd (callNumber g n who)) \/
     (exists n who w,
         isUserTurn g who = true /\ ~ In n (history g) /\ 1 <= n <= 25 /\
         Routes.evaluate now (snd (callNumber g n who)) = Some (g', w))).
Proof.
  destruct op as [me id | me id acc | me id | me id | me id p | me id n];
    simpl.
  - (* join *)
    unfold Routes.joinGame.
    destruct (findById db id) as [game |] eqn:Hf; [| now left].
    destruct (canJoin now game me) eqn:Hj; simpl; [| now left].
    destruct (save _ _ _ _) as [[g' db'] |] eqn:Hs; [| now left].
    apply save_Some in Hs as [Hg' Hdb'].
    rewrite preSave_not_pending in Hg' by (simpl; discriminate).
    right. exists game, g'. simpl. repeat split; try assumption.
    left. split; [assumption |]. intros _.
    unfold canJoin in Hj. apply andb_prop in Hj as [Hj _].
    apply andb_prop in Hj as [Hj _]. now apply Transitions.Status_eqb_eq.
  - (* respond-to-invitation *)
    unfold Sockets.respondToInvitation.
    destruct (findById db id) as [game |] eqn:Hf; [| now left].
    destruct (Nat.eqb (opponent game) me); simpl; [| now left].
    destruct acc.
    + destruct (save _ _ _ _) as [[g' db'] |] eqn:Hs; [| now left].
      apply save_Some in Hs as [Hg' Hdb'].
      rewrite preSave_not_pending in Hg' by (simpl; discriminate).
      right. exists game, g'. simpl. repeat split; try assumption.
      left. split; [assumption | discriminate].
    + destruct (save _ _ _ _) as [[g' db'] |] eqn:Hs; [| now left].
      apply save_Some in Hs as [Hg' Hdb'].
      rewrite preSave_not_pending in Hg' by (simpl; discriminate).
      right. exists game, g'. simpl. repeat split; try assumption.
      right. left. split; [assumption | discriminate].
  - (* decline *)
    unfold Routes.declineGame.
    destruct (findById db id) as [game |] eqn:Hf; [| now left].
    destruct (Nat.eqb (opponent game) me); simpl; [| now left].
    destruct (Status_eqb (status game) pending) eqn:Hp; simpl; [| now left].
    destruct (save _ _ _ _) as [[g' db'] |] eqn:Hs; [| now left].
    apply save_Some in Hs as [Hg' Hdb'].
    rewrite preSave_not_pending in Hg' by (simpl; discriminate).
    right. exists game, g'. simpl. repeat split; try assumption.
    right. left. split; [assumption |]. intros _.
    apply Transitions.Status_eqb_eq in Hp. rewrite Hp. discriminate.
  - (* cancel *)
    unfold Routes.cancelGame.
    destruct (findById db id) as [game |] eqn:Hf; [| now left].
    destruct (Nat.eqb (creator game) me); simpl; [| now left].
    destruct (Status_eqb (status game) completed) eqn:Hp; simpl; [now left |].
    destruct (save _ _ _ _) as [[g' db'] |] eqn:Hs; [| now left].
    apply save_Some in Hs as [Hg' Hdb'].
    rewrite preSave_not_pending in Hg' by (simpl; discriminate).
    right. exists game, g'. simpl. repeat split; try assumption.
    right. left. split; [assumption |]. intros _.
    now apply Transitions.Status_eqb_neq.
  - (* call-number, REST *)
    unfold Routes.callNumberRoute.
    destruct (findById db id) as [game |] eqn:Hf; [| now left].
    destruct (Status_eqb (status game) active) eqn:Hp; simpl; [| now left].
    destruct (isUserTurn game me) eqn:Ht; simpl; [| now left].
    destruct (Routes.invalidNumber p) eqn:Hinv; [now left |].
    apply Validation.rest_invalid_iff in Hinv.
    destruct p as [n |]; [| destruct Hinv]. simpl in Hinv. simpl.
    pose proof (Transitions.callNumber_keeps game n me) as [Hid Hst].
    pose proof (CallNumber.callNumber_seen game n me) as Hseen.
    destruct (callNumber game n me) as [called g1] eqn:Hcall.
    simpl in Hid, Hst.
    destruct called; simpl; [| now left].
    destruct (Routes.evaluate now g1) as [[g2 w] |] eqn:He; [| now left].
    pose proof (Transitions.evaluate_keeps _ _ _ _ He) as [Hid2 Hst2].
    apply Transitions.Status_eqb_eq in Hp.
    destruct (save _ _ _ _) as [[g' db'] |] eqn:Hs; [| now left].
    apply save_Some in Hs as [Hg' Hdb'].
    rewrite preSave_not_pending in Hg'
      by (destruct Hst2 as [-> | ->]; congruence).
    right. exists game, g'. subst g'. simpl. repeat split; try assumption.
    right. right. right. exists n, me, w. repeat split; try assumption; try lia.
    + intros Hin. specialize (Hseen Hin). discriminate Hseen.
    + now rewrite Hcall.
  - (* call-number, socket *)
    unfold Sockets.callNumberHandler.
    destruct (findById db id) as [game |] eqn:Hf; [| now left].
    destruct (Status_eqb (status game) active) eqn:Hp; simpl; [| now left].
    destruct (isUserTurn game me) eqn:Ht; simpl; [| now left].
    pose proof (Transitions.callNumber_keeps game n me) as [Hid Hst].
    pose proof (CallNumber.callNumber_seen game n me) as Hseen.
    destruct (callNumber game n me) as [called g1] eqn:Hcall.
    simpl in Hid, Hst.
    destruct called; simpl; [| now left].
    apply Transitions.Status_eqb_eq in Hp.
    destruct (save _ _ _ _) as [[g' db'] |] eqn:Hs; [| now left].
    apply save_Some in Hs as [Hg' Hdb'].
    rewrite preSave_not_pending in Hg' by congruence.
    right. exists game, g'. subst g'. simpl. repeat split; try assumption.
    right. right. left. exists n, me. repeat split; try assumption.
    + intros Hin. specialize (Hseen Hin). discriminate Hseen.
    + now rewrite Hcall.
Qed.

End StepFacts.

(** ** Invariants of the sessions in the collection *)
Module SessionInvariants.
Import Model Lifecycle StoreFacts Scenario Measures.

Lemma sameSetup_refl (g : Game) : sameSetup g g.
Proof. unfold sameSetup. tauto. Qed.

Lemma sameSetup_trans (a b c : Game) :
  sameSetup a b -> sameSetup b c -> sameSetup a c.
Proof. unfold sameSetup. intuition congruence. Qed.

Lemma extends_refl (g : Game) : extends g g.
Proof. exists []. now rewrite app_nil_r. Qed.

Lemma extends_trans (a b c : Game) : extends a b -> extends b c -> extends a c.
Proof.
  intros [x Hx] [y Hy]. exists (x ++ y). now rewrite Hy, Hx, app_assoc.
Qed.

Lemma callNumber_setup (g : Game) (n : Z) (who : ObjectId) :
  sameSetup g (snd (callNumber g n who)).
Proof.
  unfold callNumber, sameSetup. destruct (negb _); simpl; tauto.
Qed.

Lemma evaluate_data (now : Z) (g g' : Game) (w : option ObjectId) :
  Routes.evaluate now g = Some (g', w) ->
  sameSetup g g' /\
  history g' = history g /\
  currentTurn (gameData g') = currentTurn (gameData g) /\
  lastCalledNumber (gameData g') = lastCalledNumber (gameData g).
Proof.
  unfold Routes.evaluate.
  destruct (checkWinCondition g (creatorBoard _) _) as [cw |]; [| discriminate].
  destruct (checkWinCondition g (opponentBoard _) _) as [ow |]; [| discriminate].
  simpl. intros H. injection H as <- <-.
  unfold sameSetup, history.
  destruct (Routes.pickWinner _ _ _); simpl; tauto.
Qed.

Lemma lastOf_snoc (l : list Z) (n : Z) : lastOf (l ++ [n]) = Some n.
Proof. unfold lastOf. now rewrite rev_app_distr. Qed.

Lemma turnAfter_S (k : nat) : turnAfter (S k) = flipTurn (turnAfter k).
Proof.
  unfold turnAfter. rewrite Nat.even_succ, <- Nat.negb_even.
  now destruct (Nat.even k).
Qed.

Lemma callNumber_consistent (g : Game) (n : Z) (who : ObjectId) :
  consistent g -> consistent (snd (callNumber g n who)).
Proof.
  intros [Ht Hl]. unfold consistent, callNumber, history in *.
  destruct (negb (includes _ n)); simpl; [| now split].
  rewrite length_app, Nat.add_1_r, turnAfter_S, lastOf_snoc, Ht. now split.
Qed.

(** The four ways a document is rewritten, as relations between the
    document before and after. *)
Lemma frame_relations (now : Z) (g g' : Game) :
  (g' = Routes.activate now g \/
   g' = set_status g cancelled \/
   (exists n who, g' = snd (callNumber g n who)) \/
   (exists n who w,
       Routes.evaluate now (snd (callNumber g n who)) = Some (g', w))) ->
  sameSetup g g' /\ extends g g' /\ (consistent g -> consistent g').
Proof.
  intros [-> | [-> | [(n & who & ->) | (n & who & w & He)]]].
  - split; [unfold sameSetup; simpl; tauto |].
    split; [exists []; unfold history; simpl; now rewrite app_nil_r |].
    unfold consistent, history. simpl. auto.
  - split; [unfold sameSetup; simpl; tauto |].
    split; [exists []; unfold history; simpl; now rewrite app_nil_r |].
    unfold consistent, history. simpl. auto.
  - split; [apply callNumber_setup |]. split.
    + exists (if includes (history g) n then [] else [n]).
      rewrite CallNumber.callNumber_history.
      destruct (includes _ n); [now rewrite app_nil_r | reflexivity].
    + apply callNumber_consistent.
  - apply evaluate_data in He as (Hs & Hh & Ht & Hl). split.
    + eapply sameSetup_trans; [apply callNumber_setup | exact Hs].
    + split.
      * exists (if includes (history g) n then [] else [n]).
        rewrite Hh, CallNumber.callNumber_history.
        destruct (includes _ n); [now rewrite app_nil_r | reflexivity].
      * intros Hc. apply (callNumber_consistent g n who) in Hc.
        unfold consistent in *. now rewrite Hh, Ht, Hl.
Qed.

(** Lifting a relation kept by every single operation to sequences. *)
Lemma run_lift (P : Op -> bool) (R : Game -> Game -> Prop) (enforce : bool) :
  (forall g, R g g) ->
  (forall a b c, R a b -> R b c -> R a c) ->
  (forall now db op id g,
      P op = true -> findById db id = Some g ->
      exists g', findById (step enforce now db op) id = Some g' /\ R g g') ->
  forall ops db id g,
    forallb (fun o => P (snd o)) ops = true ->
    findById db id = Some g ->
    exists g', findById (run enforce db ops) id = Some g' /\ R g g'.
Proof.
  intros Hrefl Htrans Hstep ops.
  induction ops as [| [now op] ops IH] using rev_ind; intros db id g Hall Hf.
  - exists g. split; [assumption | apply Hrefl].
  - rewrite forallb_app in Hall. apply andb_prop in Hall as [Hall Hop].
    simpl in Hop. rewrite andb_true_r in Hop.
    destruct (IH db id g Hall Hf) as (g1 & Hf1 & Hr1).
    unfold run. rewrite fold_left_app. simpl. fold (run enforce db ops).
    destruct (Hstep now (run enforce db ops) op id g1 Hop Hf1)
      as (g2 & Hf2 & Hr2).
    exists g2. split; [assumption | now apply Htrans with g1].
Qed.

Lemma step_document (enforce : bool) (now : Z) (db : Store) (op : Op)
  (id : nat) (g : Game) :
  findById db id = Some g ->
  exists g',
    findById (step enforce now db op) id = Some g' /\
    (id <> opId op -> g' = g) /\
    sameSetup g g' /\ extends g g' /\ (consistent g -> consistent g').
Proof.
  intros Hf.
  assert (Hsame : exists g', Some g = Some g' /\ (id <> opId op -> g' = g) /\
                             sameSetup g g' /\ extends g g' /\
                             (consistent g -> consistent g')).
  { exists g. split; [reflexivity |]. split; [auto |].
    split; [apply sameSetup_refl |]. split; [apply extends_refl | auto]. }
  destruct (StepFacts.step_frame enforce now db op)
    as [-> | (g0 & g1 & Hf0 & -> & Hshape)].
  - now rewrite Hf.
  - assert (Hrel : sameSetup g0 g1 /\ extends g0 g1 /\
                   (consistent g0 -> consistent g1)).
    { apply (frame_relations now).
      destruct Hshape as [[H _] | [[H _] | [(n & who & _ & _ & _ & H) |
                          (n & who & w & _ & _ & _ & H)]]];
        [now left | right; now left | right; right; left; eauto
        | right; right; right; eauto]. }
    rewrite findById_upsert.
    assert (Hid1 : _id g1 = opId op).
    { destruct Hrel as [(Hid & _) _]. rewrite Hid.
      now apply findById_id in Hf0. }
    rewrite Hid1.
    destruct (Nat.eqb_spec (opId op) id) as [E | E].
    + subst id. rewrite Hf in Hf0. injection Hf0 as <-.
      exists g1. split; [reflexivity |]. split; [congruence | exact Hrel].
    + destruct Hsame as (g' & Hg' & Hrest). exists g'.
      split; [now rewrite Hf |]. exact Hrest.
Qed.

(** X7.  Sessions are never removed and never change hands: after any
    sequence of the six operations (join, respond-to-invitation, decline,
    cancel, and call-number over REST or the socket) a session is still
    found under its id with the same creator, opponent, boards and
    settings, and its history continues the old one.  One operation leaves
    every session it does not address exactly as it was. *)
Theorem sessions_keep_setup_and_history :
  forall (enforce : bool) (db : Store) (id : nat) (g : Game),
    findById db id = Some g ->
    (forall ops : list (Z * Op),
        exists g', findById (run enforce db ops) id = Some g' /\
                   sameSetup g g' /\ extends g g') /\
    (forall (now : Z) (op : Op),
        id <> opId op -> findById (step enforce now db op) id = Some g).
Proof.
  intros enforce db id g Hf. split.
  - intros ops.
    apply (run_lift (fun _ => true) (fun a b => sameSetup a b /\ extends a b));
      try assumption.
    + intros a. split; [apply sameSetup_refl | apply extends_refl].
    + intros a b c [H1 H2] [H3 H4].
      split; [now apply sameSetup_trans with b | now apply extends_trans with b].
    + intros now db0 op id0 g0 _ Hf0.
      destruct (step_document enforce now db0 op id0 g0 Hf0)
        as (g' & Hg' & _ & Hs & He & _).
      exists g'. auto.
    + now apply forallb_forall.
  - intros now op Hne.
    destruct (step_document enforce now db op id g Hf)
      as (g' & Hg' & Hother & _).
    now rewrite Hg', (Hother Hne).
Qed.

Lemma sessions_keep_setup_and_history_witness :
  (forall ops : list (Z * Op),
      exists g', findById (run true [pendingGame] ops) 100 = Some g' /\
                 sameSetup pendingGame g' /\ extends pendingGame g') /\
  (forall (now : Z) (op : Op),
      100%nat <> opId op ->
      findById (step true now [pendingGame] op) 100 = Some pendingGame).
Proof.
  apply (sessions_keep_setup_and_history true [pendingGame] 100%nat pendingGame).
  reflexivity.
Defined.

(** X8.  In every session whose turn pointer and last-called number agree
    with its history, they still agree after any sequence of the six
    operations: it is the creator's turn exactly when an even number of
    calls was recorded, and [lastCalledNumber] is the last entry of the
    history. *)
Theorem turn_follows_history_parity :
  forall (enforce : bool) (db : Store) (id : nat) (g : Game)
         (ops : list (Z * Op)),
    findById db id = Some g ->
    consistent g ->
    exists g', findById (run enforce db ops) id = Some g' /\ consistent g'.
Proof.
  intros enforce db id g ops Hf Hc.
  destruct (run_lift (fun _ => true)
              (fun a b => consistent a -> consistent b) enforce)
    with (ops := ops) (db := db) (id := id) (g := g) as (g' & Hg' & Hr);
    auto.
  - intros now db0 op id0 g0 _ Hf0.
    destruct (step_document enforce now db0 op id0 g0 Hf0)
      as (g' & Hg' & _ & _ & _ & Hk).
    exists g'. auto.
  - now apply forallb_forall.
  - exists g'. auto.
Qed.

Lemma turn_follows_history_parity_witness :
  exists g',
    findById (run true [pendingGame]
                  [(10, Join 2%nat 100);
                   (20, CallNumberRest 1%nat 100 (PNumber 7));
                   (30, CallNumberSocket 2%nat 100 8);
                   (40, CallNumberSocket 2%nat 100 9)]) 100 = Some g' /\
    consistent g'.
Proof.
  apply (turn_follows_history_parity true [pendingGame] 100%nat pendingGame).
  - reflexivity.
  - split; reflexivity.
Defined.

Lemma restHistory_call (g : Game) (n : Z) (who : ObjectId) :
  1 <= n <= 25 -> restHistory g -> restHistory (snd (callNumber g n who)).
Proof.
  intros Hn [Hnd Hall]. split.
  - now apply CallNumber.callNumber_NoDup.
  - rewrite CallNumber.callNumber_history.
    destruct (includes (history g) n); [assumption |].
    apply Forall_app. split; [assumption |]. now constructor.
Qed.

Lemma step_restHistory (enforce : bool) (now : Z) (db : Store) (op : Op)
  (id : nat) (g : Game) :
  isSocketCall op = false ->
  findById db id = Some g ->
  exists g', findById (step enforce now db op) id = Some g' /\
             (restHistory g -> restHistory g').
Proof.
  intros Hop Hf.
  destruct (StepFacts.step_frame enforce now db op)
    as [-> | (g0 & g1 & Hf0 & Hstep & Hshape)].
  - exists g. auto.
  - destruct (step_document enforce now db op id g Hf)
      as (g' & Hg' & Hother & _).
    exists g'. split; [assumption |].
    destruct (Nat.eq_dec id (opId op)) as [E | E];
      [| now rewrite (Hother E)].
    subst id. rewrite Hf in Hf0. injection Hf0 as <-.
    assert (Hid1 : _id g1 = opId op).
    { destruct (frame_relations now g g1) as [(Hid & _) _].
      - destruct Hshape as [[H _] | [[H _] | [(n & who & _ & _ & _ & H) |
                            (n & who & w & _ & _ & _ & H)]]];
          [now left | right; now left | right; right; left; eauto
          | right; right; right; eauto].
      - rewrite Hid. now apply findById_id in Hf. }
    assert (g' = g1) as ->.
    { rewrite Hstep, findById_upsert, Hid1, Nat.eqb_refl in Hg'. congruence. }
    destruct Hshape as [[-> _] | [[-> _] | [(n & who & Hs & _) |
                        (n & who & w & _ & _ & Hn & He)]]]; auto.
    + congruence.
    + intros Hr. apply (restHistory_call g n who Hn) in Hr.
      apply evaluate_data in He as (_ & Hh & _).
      unfold restHistory in *. now rewrite Hh.
Qed.

(** X9.  As long as numbers are called through the REST route only (no
    'call-number' socket call, which does not validate the number), a
    session whose history is duplicate-free with every entry between 1
    and 25 keeps such a history under any sequence of operations. *)
Theorem rest_history_stays_in_range :
  forall (enforce : bool) (db : Store) (id : nat) (g : Game)
         (ops : list (Z * Op)),
    forallb (fun o => negb (isSocketCall (snd o))) ops = true ->
    findById db id = Some g ->
    restHistory g ->
    exists g', findById (run enforce db ops) id = Some g' /\ restHistory g'.
Proof.
  intros enforce db id g ops Hall Hf Hr.
  destruct (run_lift (fun op => negb (isSocketCall op))
              (fun a b => restHistory a -> restHistory b) enforce)
    with (ops := ops) (db := db) (id := id) (g := g) as (g' & Hg' & Hk);
    auto.
  - intros now db0 op id0 g0 Hop Hf0. apply negb_true_iff in Hop.
    now apply step_restHistory.
  - exists g'. split; [assumption | auto].
Qed.

Lemma rest_history_stays_in_range_witness :
  exists g',
    findById (run true [pendingGame]
                  [(10, Join 2%nat 100);
                   (20, CallNumberRest 1%nat 100 (PNumber 7));
                   (30, CallNumberRest 2%nat 100 (PNumber 26));
                   (40, CallNumberRest 2%nat 100 (PNumber 25))]) 100
      = Some g' /\
    restHistory g'.
Proof.
  apply (rest_history_stays_in_range true [pendingGame] 100%nat pendingGame).
  - reflexivity.
  - reflexivity.
  - split; constructor.
Defined.

Lemma set_status_same (g : Game) (s : Status) :
  status g = s -> set_status g s = g.
Proof. destruct g. simpl. now intros ->. Qed.

Lemma step_terminal (enforce : bool) (now : Z) (db : Store) (op : Op)
  (id : nat) (g : Game) :
  isRespond op = false ->
  findById db id = Some g ->
  nonTerminal (status g) = false ->
  findById (step enforce now db op) id = Some g.
Proof.
  intros Hop Hf Hterm.
  destruct (Nat.eq_dec id (opId op)) as [E | E].
  - subst id.
    destruct (StepFacts.step_frame enforce now db op)
      as [-> | (g0 & g1 & Hf0 & -> & Hshape)]; [assumption |].
    rewrite Hf in Hf0. injection Hf0 as <-.
    destruct Hshape as [[_ Hp] | [[-> Hc] | [(n & who & _ & Ht & _) |
                        (n & who & w & Ht & _)]]].
    + rewrite (Hp Hop) in Hterm. discriminate.
    + specialize (Hc Hop).
      rewrite set_status_same by (destruct (status g); simpl in *; congruence).
      rewrite StepFacts.upsert_same; [assumption |].
      now rewrite (findById_id _ _ _ Hf).
    + apply StepFacts.isUserTurn_active in Ht. rewrite Ht in Hterm.
      discriminate.
    + apply StepFacts.isUserTurn_active in Ht. rewrite Ht in Hterm.
      discriminate.
  - destruct (step_document enforce now db op id g Hf)
      as (g' & Hg' & Hother & _).
    now rewrite Hg', (Hother E).
Qed.

(** X10.  A completed or cancelled session is never rewritten by join,
    decline, cancel or call-number (REST or socket): after any sequence of
    these the very same document is found, with its winner, history, turn
    pointer and timestamps. *)
Theorem terminal_session_is_frozen :
  forall (enforce : bool) (db : Store) (id : nat) (g : Game)
         (ops : list (Z * Op)),
    forallb (fun o => negb (isRespond (snd o))) ops = true ->
    findById db id = Some g ->
    nonTerminal (status g) = false ->
    findById (run enforce db ops) id = Some g.
Proof.
  intros enforce db id g ops Hall Hf Hterm.
  destruct (run_lift (fun op => negb (isRespond op))
              (fun a b => nonTerminal (status a) = false -> b = a) enforce)
    with (ops := ops) (db := db) (id := id) (g := g) as (g' & Hg' & Hk);
    auto.
  - intros a b c Hab Hbc Ha. specialize (Hab Ha). subst b. auto.
  - intros now db0 op id0 g0 Hop Hf0. apply negb_true_iff in Hop.
    exists (match nonTerminal (status g0) with
            | false => g0
            | true => match findById (step enforce now db0 op) id0 with
                      | Some x => x
                      | None => g0
                      end
            end).
    destruct (nonTerminal (status g0)) eqn:Hnt.
    + destruct (step_document enforce now db0 op id0 g0 Hf0)
        as (g' & Hg' & _).
      rewrite Hg'. split; [reflexivity | discriminate].
    + split; [now apply step_terminal | reflexivity].
  - now rewrite Hg', (Hk Hterm).
Qed.

Lemma terminal_session_is_frozen_witness :
  findById (run true [endGame 50 (activeGame [7] opponentTurn 5) 1%nat]
                [(60, Join 2%nat 100);
                 (70, CallNumberRest 2%nat 100 (PNumber 8));
                 (80, Cancel 1%nat 100);
                 (90, Decline 2%nat 100);
                 (95, CallNumberSocket 2%nat 100 9)]) 100
    = Some (endGame 50 (activeGame [7] opponentTurn 5) 1%nat).
Proof.
  apply (terminal_session_is_frozen true
           [endGame 50 (activeGame [7] opponentTurn 5) 1%nat] 100%nat
           (endGame 50 (activeGame [7] opponentTurn 5) 1%nat)).
  - reflexivity.
  - reflexivity.
  - reflexivity.
Defined.

End SessionInvariants.

(** ** Creating, joining and evaluating *)
Module Flow.
Import Model StoreFacts Scenario Measures.

Lemma freshId_above (db : Store) (d : Game) :
  In d db -> (_id d < Routes.freshId db)%nat.
Proof.
  unfold Routes.freshId. induction db as [| x db IH]; simpl; [tauto |].
  intros [-> | Hin]; [lia |]. specialize (IH Hin). lia.
Qed.

Lemma upsert_fresh (db : Store) (g : Game) :
  (forall d, In d db -> _id d <> _id g) -> upsert db g = db ++ [g].
Proof.
  induction db as [| x db IH]; intros Hnew; simpl; [reflexivity |].
  destruct (Nat.eqb_spec (_id x) (_id g)) as [E | E].
  - exfalso. apply (Hnew x); [now left | assumption].
  - f_equal. apply IH. intros d Hd. apply Hnew. now right.
Qed.

Lemma findById_app_old (db : Store) (g g0 : Game) (id : nat) :
  findById db id = Some g0 -> findById (db ++ [g]) id = Some g0.
Proof.
  unfold findById. induction db as [| x db IH]; simpl; [discriminate |].
  destruct (Nat.eqb (_id x) id); auto.
Qed.

Lemma findById_app_new (db : Store) (g : Game) :
  (forall d, In d db -> _id d <> _id g) ->
  findById (db ++ [g]) (_id g) = Some g.
Proof.
  unfold findById. induction db as [| x db IH]; intros Hnew; simpl.
  - now rewrite Nat.eqb_refl.
  - destruct (Nat.eqb_spec (_id x) (_id g)) as [E | E].
    + exfalso. apply (Hnew x); [now left | assumption].
    + apply IH. intros d Hd. apply Hnew. now right.
Qed.

Lemma preSave_newGame (now : Z) (id : nat) (me other : ObjectId)
  (gt : GameType) (b : Board) :
  preSave now (Routes.newGame now id me other gt b)
    = Routes.newGame now id me other gt b.
Proof.
  assert (E : isExpired now (Routes.newGame now id me other gt b) = false).
  { unfold isExpired. cbn [Routes.newGame status invitationExpiresAt Status_eqb
                           andb].
    apply Z.ltb_ge. unfold invitationWindow. lia. }
  unfold preSave. now rewrite E.
Qed.

Lemma createGame_cases :
  forall (enforce : bool) (rnd : nat -> Routes.Draw) (now : Z)
         (users : list ObjectId) (db : Store) (me : ObjectId)
         (body : Routes.CreateBody),
    let r := Routes.createGame enforce rnd now users db me body in
    (exists code msg, r = (Routes.Err code msg, db)) \/
    (exists g,
        r = (Routes.Ok 201 "Game created successfully" g, db ++ [g]) /\
        (forall d, In d db -> _id d <> _id g) /\
        status g = pending /\ winner g = None /\
        creator g = me /\
        opponent g = match Routes.opponentId body with
                     | Some o => o
                     | None => me
                     end /\
        history g = [] /\
        currentTurn (gameData g) = creatorTurn /\
        creatorBoard (gameData g) = Routes.generateBingoBoard rnd /\
        opponentBoard (gameData g) = Routes.generateBingoBoard rnd /\
        invitationExpiresAt g = now + invitationWindow /\
        findById (db ++ [g]) (_id g) = Some g /\
        (forall id g0, findById db id = Some g0 ->
                       findById (db ++ [g]) id = Some g0)).
Proof.
  intros enforce rnd now users db me body r. unfold r, Routes.createGame.
  set (gt := match Routes.gameTypeField body with
             | Some t => t
             | None => multiplayer
             end).
  set (other := match Routes.opponentId body with
                | Some o => o
                | None => me
                end).
  set (g := Routes.newGame now (Routes.freshId db) me other gt
                           (Routes.generateBingoBoard rnd)).
  assert (Hfresh : forall d, In d db -> _id d <> _id g).
  { intros d Hd. apply freshId_above in Hd. simpl. lia. }
  assert (Hproceed :
            (exists code msg,
                match save enforce now db g with
                | Some (g1, db') =>
                    (Routes.Ok 201 "Game created successfully" g1, db')
                | None => (Routes.internalError, db)
                end = (Routes.Err code msg, db)) \/
            match save enforce now db g with
            | Some (g1, db') =>
                (Routes.Ok 201 "Game created successfully" g1, db')
            | None => (Routes.internalError, db)
            end = (Routes.Ok 201 "Game created successfully" g, db ++ [g])).
  { destruct (save enforce now db g) as [[g1 db'] |] eqn:Hs.
    - right. apply save_Some in Hs as [Hg1 Hdb'].
      unfold g in Hg1. rewrite preSave_newGame in Hg1. fold g in Hg1.
      subst g1 db'. now rewrite (upsert_fresh db g Hfresh).
    - left. unfold Routes.internalError. eauto. }
  assert (Hgood :
            forall x,
              x = (Routes.Ok 201 "Game created successfully" g, db ++ [g]) ->
              exists g',
                x = (Routes.Ok 201 "Game created successfully" g', db ++ [g'])
                /\ (forall d, In d db -> _id d <> _id g') /\
                status g' = pending /\ winner g' = None /\
                creator g' = me /\ opponent g' = other /\
                history g' = [] /\
                currentTurn (gameData g') = creatorTurn /\
                creatorBoard (gameData g') = Routes.generateBingoBoard rnd /\
                opponentBoard (gameData g') = Routes.generateBingoBoard rnd /\
                invitationExpiresAt g' = now + invitationWindow /\
                findById (db ++ [g']) (_id g') = Some g' /\
                (forall id g0, findById db id = Some g0 ->
                               findById (db ++ [g']) id = Some g0)).
  { intros x ->. exists g.
    split; [reflexivity |]. split; [exact Hfresh |].
    do 9 (split; [reflexivity |]).
    split; [now apply findById_app_new |].
    intros id g0. apply findById_app_old. }
  destruct (Routes.opponentId body) as [o |] eqn:Ho.
  - destruct (negb (existsb (Nat.eqb o) users)); [left; eauto |].
    destruct (Routes.existingGame db me o); [left; eauto |].
    destruct Hproceed as [H | H]; [now left | right; now apply Hgood].
  - destruct (Routes.GameType_eqb gt multiplayer); [left; eauto |].
    destruct Hproceed as [H | H]; [now left | right; now apply Hgood].
Qed.

(** X11.  The create route either answers an error and leaves the
    collection as it was, or appends exactly one document and answers 201
    with it: a pending session under an id no other document has, created
    by the requester against the named opponent (the requester for a solo
    game), with an empty history, the creator to move, one generated
    board shared by both sides, and an invitation that expires 24 hours
    later.  Every document already stored is still found unchanged. *)
Theorem createGame_outcome :
  forall (enforce : bool) (rnd : nat -> Routes.Draw) (now : Z)
         (users : list ObjectId) (db : Store) (me : ObjectId)
         (body : Routes.CreateBody),
    let r := Routes.createGame enforce rnd now users db me body in
    (exists code msg, r = (Routes.Err code msg, db)) \/
    (exists g,
        r = (Routes.Ok 201 "Game created successfully" g, db ++ [g]) /\
        (forall d, In d db -> _id d <> _id g) /\
        status g = pending /\ winner g = None /\
        creator g = me /\
        opponent g = match Routes.opponentId body with
                     | Some o => o
                     | None => me
                     end /\
        history g = [] /\
        currentTurn (gameData g) = creatorTurn /\
        creatorBoard (gameData g) = Routes.generateBingoBoard rnd /\
        opponentBoard (gameData g) = Routes.generateBingoBoard rnd /\
        invitationExpiresAt g = now + invitationWindow /\
        findById (db ++ [g]) (_id g) = Some g /\
        (forall id g0, findById db id = Some g0 ->
                       findById (db ++ [g]) id = Some g0)).
Proof. exact createGame_cases. Qed.

(** X12.  The evaluation after a call, on an active session without a
    winner: a winner is recorded exactly when the session is completed; it
    is recorded exactly when one of the two boards satisfies the win
    condition, and it is the creator or the opponent.  When the two boards
    are the same board, as the create route makes them, the recorded
    winner can only be the creator. *)
Theorem evaluate_winner :
  forall (now : Z) (g g' : Game) (w : option ObjectId),
    status g = active ->
    winner g = None ->
    Routes.evaluate now g = Some (g', w) ->
    winner g' = w /\
    (status g' = completed <-> w <> None) /\
    (status g' = active <-> w = None) /\
    (w <> None <->
     checkWinCondition g (creatorBoard (gameData g)) (history g) = Some true \/
     checkWinCondition g (opponentBoard (gameData g)) (history g) = Some true) /\
    (forall u, w = Some u -> u = creator g \/ u = opponent g) /\
    (w <> None -> completedAt g' = Some now) /\
    (creatorBoard (gameData g) = opponentBoard (gameData g) ->
     w = None \/ w = Some (creator g)).
Proof.
  intros now g g' w Hact Hwin. unfold Routes.evaluate, history.
  destruct (checkWinCondition g (creatorBoard _) _) as [cw |] eqn:Hc;
    [| discriminate].
  destruct (checkWinCondition g (opponentBoard _) _) as [ow |] eqn:Ho;
    [| discriminate].
  simpl. intros H. injection H as <- <-.
  unfold Routes.pickWinner.
  destruct cw, ow; simpl; rewrite ?Hact, ?Hwin;
    repeat split; intros; try discriminate; try congruence; auto;
    try (intuition congruence).
  all: try (match goal with H : _ = _ |- _ \/ _ =>
                              rewrite <- H in Ho; rewrite Hc in Ho;
                              discriminate Ho end).
Qed.

Lemma evaluate_winner_witness :
  exists g',
    Routes.evaluate 9 (activeGame (fourRowsCalled ++ [21]) creatorTurn 5)
      = Some (g', Some 1%nat) /\
    winner g' = Some 1%nat /\
    (status g' = completed <-> Some 1%nat <> None).
Proof.
  eexists. split; [reflexivity |].
  destruct (evaluate_winner 9
              (activeGame (fourRowsCalled ++ [21]) creatorTurn 5)
              _ (Some 1%nat) eq_refl eq_refl eq_refl) as (H1 & H2 & _).
  split; [exact H1 | exact H2].
Defined.

(** X13.  A join that succeeds found a pending, unexpired session of
    which the caller is the creator or the opponent, and turned it into an
    active one started at that moment; the join is one-shot: from then on
    every join of that session, by anyone at any time, is answered
    "Cannot join this game" and changes nothing. *)
Theorem join_starts_the_game_once :
  forall (enforce : bool) (now : Z) (db db' : Store) (me : ObjectId)
         (id : nat) (code : nat) (msg : string) (g : Game),
    Routes.joinGame enforce now db me id = (Routes.Ok code msg g, db') ->
    (exists g0,
        findById db id = Some g0 /\ status g0 = pending /\
        now <= invitationExpiresAt g0 /\ isParticipant g0 me /\
        g = Routes.activate now g0) /\
    findById db' id = Some g /\
    status g = active /\ startedAt g = Some now /\
    invitationAccepted g = true /\
    (forall (enforce' : bool) (now' : Z) (me' : ObjectId),
        Routes.joinGame enforce' now' db' me' id
          = (Routes.Err 400 "Cannot join this game", db')).
Proof.
  intros enforce now db db' me id code msg g. unfold Routes.joinGame at 1.
  destruct (findById db id) as [g0 |] eqn:Hf; [| discriminate].
  destruct (canJoin now g0 me) eqn:Hj; simpl; [| discriminate].
  destruct (save _ _ _ _) as [[g1 db1] |] eqn:Hs; [| discriminate].
  intros H. injection H as _ _ -> ->.
  apply save_Some in Hs as [Hg Hdb].
  rewrite preSave_not_pending in Hg by (simpl; discriminate).
  subst g db'.
  unfold canJoin, isExpired in Hj.
  apply andb_prop in Hj as [Hj Hpart]. apply andb_prop in Hj as [Hp Hexp].
  apply Transitions.Status_eqb_eq in Hp.
  rewrite Hp in Hexp. simpl in Hexp.
  apply negb_true_iff, Z.ltb_ge in Hexp.
  apply orb_prop in Hpart.
  assert (Hfound : findById (upsert db (Routes.activate now g0)) id
                   = Some (Routes.activate now g0)).
  { rewrite findById_upsert. simpl. rewrite (findById_id _ _ _ Hf).
    now rewrite Nat.eqb_refl. }
  split.
  - exists g0. repeat split; auto.
    unfold isParticipant. rewrite <- !Nat.eqb_eq. tauto.
  - repeat split; auto.
    intros enforce' now' me'. unfold Routes.joinGame. rewrite Hfound.
    reflexivity.
Qed.

Lemma join_starts_the_game_once_witness :
  (exists g0,
      findById [pendingGame] 100 = Some g0 /\ status g0 = pending /\
      10 <= invitationExpiresAt g0 /\ isParticipant g0 1%nat /\
      Routes.activate 10 pendingGame = Routes.activate 10 g0) /\
  findById [Routes.activate 10 pendingGame] 100
    = Some (Routes.activate 10 pendingGame) /\
  status (Routes.activate 10 pendingGame) = active /\
  startedAt (Routes.activate 10 pendingGame) = Some 10 /\
  invitationAccepted (Routes.activate 10 pendingGame) = true /\
  (forall (enforce' : bool) (now' : Z) (me' : ObjectId),
      Routes.joinGame enforce' now' [Routes.activate 10 pendingGame] me' 100
        = (Routes.Err 400 "Cannot join this game",
           [Routes.activate 10 pendingGame])).
Proof.
  apply (join_starts_the_game_once true 10 [pendingGame]
           [Routes.activate 10 pendingGame] 1%nat 100%nat 200%nat
           "Game started successfully"%string (Routes.activate 10 pendingGame)).
  reflexivity.
Defined.

Lemma existingGame_None (db : Store) (me o : ObjectId) (d : Game) :
  Routes.existingGame db me o = None ->
  In d db -> creator d = me -> opponent d = o ->
  nonTerminal (status d) = false.
Proof.
  intros Hnone Hin Hc Ho.
  destruct (nonTerminal (status d)) eqn:E; [| reflexivity].
  destruct (Create.existingGame_found db me o d Hin E) as [e He];
    [left; now split | congruence].
Qed.

(** X14.  Create, then join: after a create request that named an opponent
    succeeded, either of the two participants who joins the new session
    no later than 24 hours after its creation starts the game, also when
    the store enforces the unique index. *)
Theorem created_game_can_be_joined :
  forall (enforce : bool) (rnd : nat -> Routes.Draw) (now t : Z)
         (users : list ObjectId) (db db' : Store) (me o u : ObjectId)
         (body : Routes.CreateBody) (code : nat) (msg : string) (g : Game),
    Routes.opponentId body = Some o ->
    Routes.createGame enforce rnd now users db me body
      = (Routes.Ok code msg g, db') ->
    t <= now + invitationWindow ->
    u = me \/ u = o ->
    exists g1 db'',
      Routes.joinGame enforce t db' u (_id g)
        = (Routes.Ok 200 "Game started successfully" g1, db'') /\
      g1 = Routes.activate t g /\
      status g1 = active /\ startedAt g1 = Some t /\
      findById db'' (_id g) = Some g1.
Proof.
  intros enforce rnd now t users db db' me o u body code msg g Ho Hc Ht Hu.
  assert (Hnone : Routes.existingGame db me o = None).
  { unfold Routes.createGame in Hc. rewrite Ho in Hc.
    destruct (negb (existsb (Nat.eqb o) users)); [discriminate |].
    now destruct (Routes.existingGame db me o). }
  destruct (createGame_cases enforce rnd now users db me body)
    as [(c & e & Herr) | (g' & Hok & Hfresh & Hst & _ & Hcr & Hop & _ & _ & _
                          & _ & Hexp & Hnew & _)].
  { rewrite Hc in Herr. discriminate. }
  rewrite Hc in Hok. injection Hok as _ _ <- ->. rewrite Ho in Hop.
  assert (Hjoin : canJoin t g u = true).
  { unfold canJoin, isExpired. rewrite Hst, Hexp, Hcr, Hop. simpl.
    apply andb_true_intro. split.
    - apply negb_true_iff, Z.ltb_ge. lia.
    - apply orb_true_intro. rewrite !Nat.eqb_eq.
      destruct Hu; [left | right]; congruence. }
  assert (Hdup : duplicateKey (db ++ [g]) (Routes.activate t g) = false).
  { unfold duplicateKey. simpl.
    apply not_true_is_false. intros Hex. apply existsb_exists in Hex
      as (d & Hin & Hd).
    apply andb_prop in Hd as [Hd Hs]. apply andb_prop in Hd as [Hd Hopp].
    apply andb_prop in Hd as [Hid Hcre].
    apply negb_true_iff, Nat.eqb_neq in Hid.
    apply Nat.eqb_eq in Hcre, Hopp. apply Transitions.Status_eqb_eq in Hs.
    apply in_app_or in Hin as [Hin | [-> | []]]; [| congruence].
    assert (nonTerminal (status d) = false)
      by (apply (existingGame_None db me o d Hnone Hin); congruence).
    rewrite Hs in H. discriminate. }
  unfold Routes.joinGame. rewrite Hnew, Hjoin. simpl.
  unfold save. rewrite preSave_not_pending by (simpl; discriminate).
  rewrite Hdup, andb_false_r.
  eexists. eexists. split; [reflexivity |].
  split; [reflexivity |]. split; [reflexivity |]. split; [reflexivity |].
  rewrite findById_upsert. simpl. now rewrite Nat.eqb_refl.
Qed.

Lemma created_game_can_be_joined_witness :
  exists g1 db'',
    Routes.joinGame true (5 + invitationWindow)
      [soloGame; Routes.newGame 5 101 1%nat 2%nat multiplayer
                                (Routes.generateBingoBoard zeroDraws)]
      2%nat 101
      = (Routes.Ok 200 "Game started successfully" g1, db'') /\
    g1 = Routes.activate (5 + invitationWindow)
           (Routes.newGame 5 101 1%nat 2%nat multiplayer
                           (Routes.generateBingoBoard zeroDraws)) /\
    status g1 = active /\ startedAt g1 = Some (5 + invitationWindow) /\
    findById db'' 101 = Some g1.
Proof.
  apply (created_game_can_be_joined true zeroDraws 5 (5 + invitationWindow)
           [1%nat; 2%nat] [soloGame]
           [soloGame; Routes.newGame 5 101 1%nat 2%nat multiplayer
                                     (Routes.generateBingoBoard zeroDraws)]
           1%nat 2%nat 2%nat (Routes.mkCreateBody (Some 2%nat) None)
           201%nat "Game created successfully"%string
           (Routes.newGame 5 101 1%nat 2%nat multiplayer
                           (Routes.generateBingoBoard zeroDraws))).
  - reflexivity.
  - reflexivity.
  - apply Z.le_refl.
  - right. reflexivity.
Defined.

Lemma roundMinutes_bounds (x : Z) :
  60000 * roundMinutes x - 30000 <= x < 60000 * roundMinutes x + 30000.
Proof.
  unfold roundMinutes.
  pose proof (Z_div_mod_eq_full (x + 30000) 60000) as Hd.
  pose proof (Z.mod_pos_bound (x + 30000) 60000 ltac:(lia)) as Hm.
  lia.
Qed.

Lemma isUserTurn_designated (g : Game) (u : ObjectId) :
  isUserTurn g u = true -> status g = active /\ u = currentTurnUser g.
Proof. apply ModelFacts.isUserTurn_spec. Qed.

(** X21.  [endGame] completes the session for the given winner at the
    current time.  When the game had been started, the recorded duration
    is the elapsed time rounded to the nearest minute (half a minute
    rounds up), so it is within half a minute of the elapsed time and not
    negative when the clock did not run backwards; when it had never been
    started the duration is left as it was.  History, turn pointer and
    participants are kept. *)
Theorem endGame_records_completion :
  forall (now : Z) (g : Game) (winnerId : ObjectId),
    let g' := endGame now g winnerId in
    status g' = completed /\ winner g' = Some winnerId /\
    completedAt g' = Some now /\
    gameData g' = gameData g /\ creator g' = creator g /\
    opponent g' = opponent g /\ startedAt g' = startedAt g /\
    (startedAt g = None -> duration g' = duration g) /\
    (forall t0, startedAt g = Some t0 ->
                exists d, duration g' = Some d /\
                          60000 * d - 30000 <= now - t0 < 60000 * d + 30000 /\
                          (t0 <= now -> 0 <= d)).
Proof.
  intros now g winnerId g'. unfold g', endGame.
  cbn [status winner completedAt gameData creator opponent startedAt duration].
  repeat split.
  - intros ->. reflexivity.
  - intros t0 ->. exists (roundMinutes (now - t0)).
    split; [reflexivity |].
    pose proof (roundMinutes_bounds (now - t0)). split; [assumption | lia].
Qed.

Lemma endGame_records_completion_witness :
  exists d,
    duration (endGame 90000 (activeGame [] creatorTurn 5) 1%nat) = Some d /\
    60000 * d - 30000 <= 90000 - 0 < 60000 * d + 30000 /\
    (0 <= 90000 -> 0 <= d).
Proof.
  destruct (endGame_records_completion 90000 (activeGame [] creatorTurn 5)
              1%nat) as (_ & _ & _ & _ & _ & _ & _ & _ & H).
  apply H. reflexivity.
Defined.

(** X22.  What a 200 answer of the REST call-number route means: the
    session was active, the caller was the participant its turn pointer
    designated, the number was a number from 1 to 25 not yet in the
    history; the stored session now has that number appended, the caller
    as [lastCalledBy] and the turn passed to the other side, and it is
    either still active or completed with a recorded winner. *)
Theorem call_number_route_success :
  forall (enforce : bool) (now : Z) (db db' : Store) (me : ObjectId)
         (id : nat) (p : Payload) (code : nat) (msg : string) (g' : Game),
    Routes.callNumberRoute enforce now db me id p
      = (Routes.Ok code msg g', db') ->
    exists g n,
      findById db id = Some g /\ status g = active /\
      me = currentTurnUser g /\
      p = PNumber n /\ 1 <= n <= 25 /\ ~ In n (history g) /\
      findById db' id = Some g' /\
      history g' = history g ++ [n] /\
      lastCalledNumber (gameData g') = Some n /\
      lastCalledBy (gameData g') = Some me /\
      currentTurn (gameData g') = flipTurn (currentTurn (gameData g)) /\
      ((status g' = active /\ winner g' = winner g) \/
       (status g' = completed /\ exists u, winner g' = Some u)).
Proof.
  intros enforce now db db' me id p code msg g'.
  unfold Routes.callNumberRoute.
  destruct (findById db id) as [g |] eqn:Hf; [| discriminate].
  destruct (Status_eqb (status g) active) eqn:Hact; simpl; [| discriminate].
  destruct (isUserTurn g me) eqn:Ht; simpl; [| discriminate].
  destruct (Routes.invalidNumber p) eqn:Hinv; [discriminate |].
  apply Validation.rest_invalid_iff in Hinv.
  destruct p as [n |]; [| destruct Hinv]. simpl in Hinv.
  apply Transitions.Status_eqb_eq in Hact.
  apply isUserTurn_designated in Ht as [_ Hme].
  unfold callNumber. cbn [Routes.payloadNumber].
  destruct (includes (calledNumbers (gameData g)) n) eqn:Hinc;
    cbn [negb]; [discriminate |].
  apply includes_not_In in Hinc.
  unfold Routes.evaluate.
  destruct (checkWinCondition _ (creatorBoard _) _) as [cw |];
    [| discriminate].
  destruct (checkWinCondition _ (opponentBoard _) _) as [ow |];
    [| discriminate].
  cbn [bind negb].
  match goal with
  | |- context [save enforce now db ?x] =>
      destruct (save enforce now db x) as [[g3 db3] |] eqn:Hs;
      [| discriminate]
  end.
  intros H. injection H as _ _ -> ->.
  apply save_Some in Hs as [Hg3 Hdb]. subst db'.
  rewrite preSave_not_pending in Hg3
    by (destruct (Routes.pickWinner _ _ _); simpl; congruence).
  assert (Hfound : findById (upsert db g') id = Some g').
  { rewrite findById_upsert.
    replace (_id g') with id; [now rewrite Nat.eqb_refl |].
    subst g'. apply findById_id in Hf.
    destruct (Routes.pickWinner _ _ _); simpl; congruence. }
  exists g, n.
  split; [reflexivity |]. split; [assumption |]. split; [assumption |].
  split; [reflexivity |]. split; [assumption |]. split; [assumption |].
  split; [assumption |].
  subst g'. unfold history.
  destruct (Routes.pickWinner _ _ _) as [u |]; simpl.
  - repeat split. right. split; [reflexivity | now exists u].
  - repeat split. left. now split.
Qed.

Lemma call_number_route_success_witness :
  exists g n,
    findById [activeGame [] creatorTurn 5] 100 = Some g /\
    status g = active /\ 1%nat = currentTurnUser g /\
    PNumber 7 = PNumber n /\ 1 <= n <= 25 /\ ~ In n (history g) /\
    findById [snd (callNumber (activeGame [] creatorTurn 5) 7 1%nat)] 100
      = Some (snd (callNumber (activeGame [] creatorTurn 5) 7 1%nat)) /\
    history (snd (callNumber (activeGame [] creatorTurn 5) 7 1%nat))
      = history g ++ [n] /\
    lastCalledNumber
      (gameData (snd (callNumber (activeGame [] creatorTurn 5) 7 1%nat)))
      = Some n /\
    lastCalledBy
      (gameData (snd (callNumber (activeGame [] creatorTurn 5) 7 1%nat)))
      = Some 1%nat /\
    currentTurn
      (gameData (snd (callNumber (activeGame [] creatorTurn 5) 7 1%nat)))
      = flipTurn (currentTurn (gameData g)) /\
    ((status (snd (callNumber (activeGame [] creatorTurn 5) 7 1%nat)) = active
      /\ winner (snd (callNumber (activeGame [] creatorTurn 5) 7 1%nat))
         = winner g) \/
     (status (snd (callNumber (activeGame [] creatorTurn 5) 7 1%nat))
        = completed /\
      exists u,
        winner (snd (callNumber (activeGame [] creatorTurn 5) 7 1%nat))
          = Some u)).
Proof.
  apply (call_number_route_success true 9 [activeGame [] creatorTurn 5]
           [snd (callNumber (activeGame [] creatorTurn 5) 7 1%nat)]
           1%nat 100%nat (PNumber 7) 200%nat
           "Number called successfully"%string
           (snd (callNumber (activeGame [] creatorTurn 5) 7 1%nat))).
  reflexivity.
Defined.

End Flow.

(** ** The room gateway *)
Module RoomFacts.
Import Realtime.

(** X15.  The 'checkWin' handler decides on the submitted board alone: in
    an active room any player who submits a board whose first row is
    empty wins under pattern [line] (and under an unknown pattern), and
    one who submits the empty board wins under pattern [full], whatever
    has been called; the room is completed with that player as winner. *)
Theorem checkWin_decides_on_submitted_board :
  forall (now : Z) (db : Rooms) (me : ObjectId) (code : string) (room : Room)
         (rest : Board),
    findOne db code = Some room ->
    status room = active ->
    isPlayer room me = true ->
    ((winPattern room = line \/ winPattern room = unknownPattern) ->
     checkWinHandler now db me code (Some ([] :: rest))
       = (Emitted "gameCompleted" (complete now room me),
          saveRoom db (complete now room me))) /\
    (winPattern room = full ->
     checkWinHandler now db me code (Some [])
       = (Emitted "gameCompleted" (complete now room me),
          saveRoom db (complete now room me))) /\
    winner (complete now room me) = Some me /\
    status (complete now room me) = completed.
Proof.
  intros now db me code room rest Hf Hact Hpl.
  unfold checkWinHandler. rewrite Hf, Hact, Hpl. simpl.
  split; [| split; [| split; reflexivity]].
  - intros [-> | ->]; reflexivity.
  - intros ->. reflexivity.
Qed.

Lemma checkWin_decides_on_submitted_board_witness :
  checkWinHandler 9 [Scenario.sampleRoom []] 2%nat "room42" (Some [[]])
    = (Emitted "gameCompleted" (complete 9 (Scenario.sampleRoom []) 2%nat),
       saveRoom [Scenario.sampleRoom []]
                (complete 9 (Scenario.sampleRoom []) 2%nat)) /\
  winner (complete 9 (Scenario.sampleRoom []) 2%nat) = Some 2%nat.
Proof.
  destruct (checkWin_decides_on_submitted_board 9 [Scenario.sampleRoom []]
              2%nat "room42"%string (Scenario.sampleRoom []) [])
    as (Hline & _ & Hw & _); try reflexivity.
  split; [apply Hline; left; reflexivity | exact Hw].
Defined.

Lemma forallb_false_of_member {A : Type} (f : A -> bool) (l : list A) (x : A) :
  In x l -> f x = false -> forallb f l = false.
Proof.
  intros Hin Hx. destruct (forallb f l) eqn:E; [| reflexivity].
  rewrite forallb_forall in E. rewrite (E x Hin) in Hx. discriminate.
Qed.

(** X16.  On the room gateway a board with FREE in its centre can never
    win under pattern [full] or [diagonal], whatever has been called:
    every cell must be a called number there, and both diagonals pass
    through the centre. *)
Theorem free_centre_never_wins_full_or_diagonal :
  forall (board : Board) (called : list Z) (r2 : list Cell),
    rowOf board 2 = Some r2 ->
    at_ r2 2 = Free ->
    checkWinCondition board called full = Some false /\
    checkWinCondition board called diagonal <> Some true.
Proof.
  intros board called r2 Hr Hc. split.
  - simpl. unfold checkFullWin. f_equal.
    apply forallb_false_of_member with r2.
    + unfold rowOf in Hr. now apply nth_error_In in Hr.
    + apply forallb_false_of_member with Free; [| reflexivity].
      rewrite <- Hc. unfold at_. apply nth_In.
      destruct (Nat.lt_ge_cases 2 (List.length r2)) as [Hl | Hl];
        [assumption |].
      unfold at_ in Hc. rewrite nth_overflow in Hc by assumption.
      discriminate.
  - intros Hd. unfold checkWinCondition, checkDiagonalWin, cellAt in Hd.
    rewrite Hr in Hd.
    destruct (rowOf board 0) as [r0 |]; cbn [bind] in Hd; [| discriminate Hd].
    destruct (rowOf board 1) as [r1 |]; cbn [bind] in Hd; [| discriminate Hd].
    destruct (rowOf board 3) as [r3 |]; cbn [bind] in Hd; [| discriminate Hd].
    destruct (rowOf board 4) as [r4 |]; cbn [bind] in Hd; [| discriminate Hd].
    rewrite Hc in Hd. simpl in Hd. rewrite !andb_false_r in Hd.
    simpl in Hd. discriminate Hd.
Qed.

Lemma free_centre_never_wins_full_or_diagonal_witness :
  checkWinCondition Scenario.orderedBoard
                    (map Z.of_nat (seq 1 25)) full = Some false /\
  checkWinCondition Scenario.orderedBoard
                    (map Z.of_nat (seq 1 25)) diagonal <> Some true.
Proof.
  apply (free_centre_never_wins_full_or_diagonal Scenario.orderedBoard
           (map Z.of_nat (seq 1 25)) [Num 11; Num 12; Free; Num 14; Num 15]);
    reflexivity.
Defined.

Lemma existsb_number (l : list CalledNumber) (n : Z) :
  existsb (fun cn => number cn =? n) l = false <-> ~ In n (map number l).
Proof.
  split.
  - intros H Hin. apply in_map_iff in Hin as (cn & Hcn & Hin).
    assert (existsb (fun c => number c =? n) l = true).
    { apply existsb_exists. exists cn. split; [assumption |].
      now apply Z.eqb_eq. }
    congruence.
  - intros H. apply not_true_is_false. intros Hex.
    apply existsb_exists in Hex as (cn & Hin & Heq). apply Z.eqb_eq in Heq.
    apply H. apply in_map_iff. now exists cn.
Qed.

(** X17.  The 'callNumber' handler of the room gateway, for a room code
    of ASCII characters and a payload that is a JSON number [n]: it writes
    only when it accepts, a rejection leaves the rooms as they were.  An
    accepted call comes from a player of an active room, has [n] between
    1 and 75 and not yet among the numbers of the room's history, and
    appends exactly one entry {n, caller, time} to that history, so a
    duplicate-free history stays duplicate-free; status, winner and
    players are not touched. *)
Theorem room_call_outcome :
  forall (now : Z) (db db' : Rooms) (me : ObjectId) (code : string)
         (n : Z) (out : Outcome),
    Measures.isAscii code = true ->
    callNumberHandler now db me code (PNumber n) = (out, db') ->
    (forall msg, out = Rejected msg -> db' = db) /\
    (forall event r',
        out = Emitted event r' ->
        exists room,
          findOne db code = Some room /\
          1 <= n <= 75 /\
          status room = active /\ isPlayer room me = true /\
          ~ In n (map number (calledNumbers room)) /\
          calledNumbers r' = calledNumbers room ++ [mkCalledNumber n me now] /\
          (NoDup (map number (calledNumbers room)) ->
           NoDup (map number (calledNumbers r'))) /\
          status r' = status room /\ winner r' = winner room /\
          players r' = players room /\
          db' = saveRoom db r').
Proof.
  intros now db db' me code n out _. unfold callNumberHandler.
  destruct (invalidNumber (PNumber n)) eqn:Hinv.
  { intros H. injection H as <- <-. split; [auto | discriminate]. }
  apply Validation.realtime_invalid_iff in Hinv. simpl in Hinv.
  destruct (findOne db code) as [room |] eqn:Hf.
  2: { intros H. injection H as <- <-. split; [auto | discriminate]. }
  destruct (RoomStatus_eqb (status room) active) eqn:Hact; simpl.
  2: { intros H. injection H as <- <-. split; [auto | discriminate]. }
  destruct (isPlayer room me) eqn:Hpl; simpl.
  2: { intros H. injection H as <- <-. split; [auto | discriminate]. }
  destruct (existsb _ (calledNumbers room)) eqn:Hex.
  { intros H. injection H as <- <-. split; [auto | discriminate]. }
  intros H. injection H as <- <-. split; [discriminate |].
  intros event r' Hev. injection Hev as <- <-.
  apply existsb_number in Hex.
  exists room. simpl. repeat split; auto; try lia.
  - now destruct (status room).
  - intros Hnd. rewrite map_app. simpl.
    apply NoDup_rev in Hnd.
    rewrite <- (rev_involutive (map number (calledNumbers room) ++ [n])).
    apply NoDup_rev. rewrite rev_app_distr. simpl. constructor; [| assumption].
    now rewrite <- in_rev.
Qed.

Lemma room_call_outcome_witness :
  (forall msg,
      Emitted "numberCalled"
              (Scenario.sampleRoom [mkCalledNumber 7 1%nat 5]) = Rejected msg ->
      [Scenario.sampleRoom [mkCalledNumber 7 1%nat 5]] = [Scenario.sampleRoom []]) /\
  (forall event r',
      Emitted "numberCalled" (Scenario.sampleRoom [mkCalledNumber 7 1%nat 5])
        = Emitted event r' ->
      exists room,
        findOne [Scenario.sampleRoom []] "room42" = Some room /\
        1 <= 7 <= 75 /\
        status room = active /\ isPlayer room 1%nat = true /\
        ~ In 7 (map number (calledNumbers room)) /\
        calledNumbers r' = calledNumbers room ++ [mkCalledNumber 7 1%nat 5] /\
        (NoDup (map number (calledNumbers room)) ->
         NoDup (map number (calledNumbers r'))) /\
        status r' = status room /\ winner r' = winner room /\
        players r' = players room /\
        [Scenario.sampleRoom [mkCalledNumber 7 1%nat 5]]
          = saveRoom [Scenario.sampleRoom []] r').
Proof.
  apply (room_call_outcome 5 [Scenario.sampleRoom []]
           [Scenario.sampleRoom [mkCalledNumber 7 1%nat 5]] 1%nat
           "room42"%string 7).
  - reflexivity.
  - reflexivity.
Defined.

(** X18.  How the four patterns relate on a board of five rows of five
    cells: a board that wins under [full] also wins under [line],
    [corners] and [diagonal]. *)
Theorem full_win_implies_the_other_patterns :
  forall (board : Board) (called : list Z),
    List.length board = 5%nat ->
    Forall (fun r => List.length r = 5%nat) board ->
    checkWinCondition board called full = Some true ->
    checkWinCondition board called line = Some true /\
    checkWinCondition board called corners = Some true /\
    checkWinCondition board called diagonal = Some true.
Proof.
  intros board called Hlen Hrows Hfull.
  destruct board as [| r0 [| r1 [| r2 [| r3 [| r4 [| r5 rest]]]]]];
    try discriminate Hlen.
  rewrite !Forall_cons_iff in Hrows.
  destruct Hrows as (L0 & L1 & L2 & L3 & L4 & _).
  destruct r0 as [| ? [| ? [| ? [| ? [| ? [| ? ?]]]]]]; try discriminate L0.
  destruct r1 as [| ? [| ? [| ? [| ? [| ? [| ? ?]]]]]]; try discriminate L1.
  destruct r2 as [| ? [| ? [| ? [| ? [| ? [| ? ?]]]]]]; try discriminate L2.
  destruct r3 as [| ? [| ? [| ? [| ? [| ? [| ? ?]]]]]]; try discriminate L3.
  destruct r4 as [| ? [| ? [| ? [| ? [| ? [| ? ?]]]]]]; try discriminate L4.
  simpl in Hfull. unfold checkFullWin in Hfull. injection Hfull as Hfull.
  simpl in Hfull. rewrite ?andb_true_r in Hfull.
  repeat match goal with
         | H : (_ && _)%bool = true |- _ => apply andb_prop in H as [? ?]
         end.
  unfold checkWinCondition, checkLineWin, checkCornersWin, checkDiagonalWin.
  cbn [anyRow fiveIndices rowOf nth_error bind cellAt at_ nth forallb].
  repeat match goal with
         | H : includesCell called ?c = true |- _ => rewrite H; clear H
         end.
  repeat split.
Qed.

Lemma full_win_implies_the_other_patterns_witness :
  checkWinCondition [[Num 1; Num 2; Num 3; Num 4; Num 5];
                     [Num 1; Num 2; Num 3; Num 4; Num 5];
                     [Num 1; Num 2; Num 3; Num 4; Num 5];
                     [Num 1; Num 2; Num 3; Num 4; Num 5];
                     [Num 1; Num 2; Num 3; Num 4; Num 5]]
                    [5; 4; 3; 2; 1] line = Some true /\
  checkWinCondition [[Num 1; Num 2; Num 3; Num 4; Num 5];
                     [Num 1; Num 2; Num 3; Num 4; Num 5];
                     [Num 1; Num 2; Num 3; Num 4; Num 5];
                     [Num 1; Num 2; Num 3; Num 4; Num 5];
                     [Num 1; Num 2; Num 3; Num 4; Num 5]]
                    [5; 4; 3; 2; 1] corners = Some true /\
  checkWinCondition [[Num 1; Num 2; Num 3; Num 4; Num 5];
                     [Num 1; Num 2; Num 3; Num 4; Num 5];
                     [Num 1; Num 2; Num 3; Num 4; Num 5];
                     [Num 1; Num 2; Num 3; Num 4; Num 5];
                     [Num 1; Num 2; Num 3; Num 4; Num 5]]
                    [5; 4; 3; 2; 1] diagonal = Some true.
Proof.
  apply full_win_implies_the_other_patterns.
  - reflexivity.
  - repeat constructor.
  - reflexivity.
Defined.

End RoomFacts.

(** ** Presence and the per-socket session *)
Module GatewayFacts.
Import Model Gateway Measures.

Lemma mapGet_None_keys (m : Presence) (k : ObjectId) :
  ~ In k (map fst m) -> mapGet m k = None.
Proof.
  induction m as [| [k' v] m IH]; simpl; [reflexivity |].
  intros H. destruct (Nat.eqb_spec k' k) as [E | E]; [tauto |].
  apply IH. tauto.
Qed.

Lemma mapSet_keys (m : Presence) (k : ObjectId) (v : nat) (x : ObjectId) :
  In x (map fst (mapSet m k v)) <-> x = k \/ In x (map fst m).
Proof.
  induction m as [| [k' v'] m IH]; simpl.
  - intuition.
  - destruct (Nat.eqb_spec k' k) as [E | E]; simpl.
    + subst. intuition.
    + rewrite IH. intuition.
Qed.

Lemma mapDelete_keys (m : Presence) (k x : ObjectId) :
  In x (map fst (mapDelete m k)) -> In x (map fst m).
Proof.
  induction m as [| [k' v'] m IH]; simpl; [tauto |].
  destruct (Nat.eqb k' k); simpl; intuition.
Qed.

Lemma mapSet_NoDup (m : Presence) (k : ObjectId) (v : nat) :
  NoDup (map fst m) -> NoDup (map fst (mapSet m k v)).
Proof.
  induction m as [| [k' v'] m IH]; simpl; intros Hnd.
  - constructor; [intros [] | constructor].
  - inversion Hnd as [| ? ? Hnot Hrest]; subst.
    destruct (Nat.eqb_spec k' k) as [E | E]; simpl.
    + subst. now constructor.
    + constructor; [| now apply IH].
      rewrite mapSet_keys. intros [H | H]; [congruence | tauto].
Qed.

Lemma mapDelete_NoDup (m : Presence) (k : ObjectId) :
  NoDup (map fst m) -> NoDup (map fst (mapDelete m k)).
Proof.
  induction m as [| [k' v'] m IH]; simpl; intros Hnd; [constructor |].
  inversion Hnd as [| ? ? Hnot Hrest]; subst.
  destruct (Nat.eqb k' k); simpl; [assumption |].
  constructor; [| now apply IH].
  intros H. apply Hnot. now apply mapDelete_keys in H.
Qed.

Lemma mapGet_mapSet (m : Presence) (k : ObjectId) (v : nat) (x : ObjectId) :
  mapGet (mapSet m k v) x = if Nat.eqb k x then Some v else mapGet m x.
Proof.
  induction m as [| [k' v'] m IH]; simpl.
  - reflexivity.
  - destruct (Nat.eqb_spec k' k) as [E | E]; simpl.
    + subst. now destruct (Nat.eqb k x).
    + destruct (Nat.eqb_spec k' x) as [E' | E'].
      * subst. destruct (Nat.eqb_spec k x); congruence.
      * exact IH.
Qed.

Lemma mapGet_mapDelete (m : Presence) (k x : ObjectId) :
  NoDup (map fst m) ->
  mapGet (mapDelete m k) x = if Nat.eqb k x then None else mapGet m x.
Proof.
  induction m as [| [k' v'] m IH]; simpl; intros Hnd.
  - now destruct (Nat.eqb k x).
  - inversion Hnd as [| ? ? Hnot Hrest]; subst.
    destruct (Nat.eqb_spec k' k) as [E | E]; simpl.
    + subst. destruct (Nat.eqb_spec k x) as [E' | E']; [| reflexivity].
      subst. now apply mapGet_None_keys.
    + destruct (Nat.eqb_spec k' x) as [E' | E'].
      * subst. destruct (Nat.eqb_spec k x); congruence.
      * now apply IH.
Qed.

Lemma presenceRun_general (es : list PresenceEvent) :
  forall (m : Presence) (u : ObjectId),
    NoDup (map fst m) ->
    NoDup (map fst (presenceRun m es)) /\
    mapGet (presenceRun m es) u = reachableOn es u (mapGet m u).
Proof.
  induction es as [| [u' s | u' s] es IH]; intros m u Hnd; simpl.
  - now split.
  - destruct (IH (mapSet m u' s) u (mapSet_NoDup m u' s Hnd)) as [H1 H2].
    split; [exact H1 |]. now rewrite H2, mapGet_mapSet.
  - destruct (IH (mapDelete m u') u (mapDelete_NoDup m u' Hnd)) as [H1 H2].
    split; [exact H1 |]. now rewrite H2, mapGet_mapDelete.
Qed.

(** X19.  The presence map holds at most one entry per user and follows
    the user's latest event only: after any sequence of connects and
    disconnects since process start, an invitation for a user is delivered
    to the socket of that user's most recent connect, unless a disconnect
    of that user, from whichever of the user's sockets, came after it;
    the sender is told ['invitation-sent'] either way.  In particular,
    when a user connects on socket [a], then on socket [b], and socket
    [a] disconnects, the user is no longer reachable although [b] is
    still connected. *)
Theorem presence_follows_latest_event :
  forall (es : list PresenceEvent) (u : ObjectId),
    NoDup (map fst (presenceRun [] es)) /\
    sendInvitation (presenceRun [] es) u
      = (reachableOn es u None, "invitation-sent"%string) /\
    (forall a b : nat,
        fst (sendInvitation
               (presenceRun [] (es ++ [Connect u a; Connect u b;
                                       Disconnect u a])) u) = None).
Proof.
  intros es u.
  destruct (presenceRun_general es [] u) as [Hnd Hget]; [constructor |].
  split; [exact Hnd |]. split.
  - unfold sendInvitation. now rewrite Hget.
  - intros a b. unfold sendInvitation. simpl.
    unfold presenceRun. rewrite fold_left_app. fold (presenceRun [] es).
    simpl.
    rewrite mapGet_mapDelete, Nat.eqb_refl; [reflexivity |].
    now apply mapSet_NoDup, mapSet_NoDup.
Qed.

(** The socket's game is one the user takes part in. *)
Lemma session_invariant (enforce : bool) (es : list SessionEvent) :
  forall (db : Store) (s : Socket),
    (forall G, currentGameId s = Some G ->
               exists g, findById db G = Some g /\ isParticipant g (userId s)) ->
    let st := sessionRun enforce (db, s) es in
    userId (snd st) = userId s /\
    forall G, currentGameId (snd st) = Some G ->
              exists g, findById (fst st) G = Some g /\
                        isParticipant g (userId s).
Proof.
  induction es as [| e es IH]; intros db s Hinv.
  - split; [reflexivity | exact Hinv].
  - change (sessionRun enforce (db, s) (e :: es))
      with (sessionRun enforce (sessionStep enforce (db, s) e) es).
    assert (Hstep : userId (snd (sessionStep enforce (db, s) e)) = userId s /\
                    forall G,
                      currentGameId (snd (sessionStep enforce (db, s) e))
                        = Some G ->
                      exists g,
                        findById (fst (sessionStep enforce (db, s) e)) G
                          = Some g /\
                        isParticipant g (userId s)).
    { assert (Hmove : forall now op G,
                 currentGameId s = Some G ->
                 exists g, findById (Lifecycle.step enforce now db op) G
                           = Some g /\ isParticipant g (userId s)).
      { intros now op G HG. destruct (Hinv G HG) as (g & Hg & Hp).
        destruct (SessionInvariants.step_document enforce now db op G g Hg)
          as (g' & Hg' & _ & Hs & _).
        exists g'. split; [assumption |].
        destruct Hs as (_ & Hc & Ho & _). unfold isParticipant in *.
        now rewrite Hc, Ho. }
      destruct e as [G0 | G0 | now G0 acc | now op | rnd now users who body];
        simpl.
      - unfold joinGameHandler.
        destruct (findById db G0) as [g |] eqn:Hf; simpl; [| now split].
        destruct (Nat.eqb_spec (creator g) (userId s)) as [E | E]; simpl.
        + split; [reflexivity |]. intros G HG. injection HG as <-.
          exists g. split; [assumption | now left].
        + destruct (Nat.eqb_spec (opponent g) (userId s)) as [E' | E'];
            simpl; [| now split].
          split; [reflexivity |]. intros G HG. injection HG as <-.
          exists g. split; [assumption | now right].
      - split; [reflexivity | discriminate].
      - unfold respondHandler.
        pose proof (Hmove now (Lifecycle.RespondToInvitation (userId s) G0 acc))
          as Hm. simpl in Hm.
        destruct (Sockets.respondToInvitation enforce now db (userId s) G0 acc)
          as [out db'] eqn:Hr.
        simpl in Hm.
        destruct out as [msg | ev g']; simpl; [now split |].
        destruct acc; simpl; [| now split].
        split; [reflexivity |]. intros G HG. injection HG as <-.
        unfold Sockets.respondToInvitation in Hr.
        destruct (findById db G0) as [g0 |] eqn:Hf; [| discriminate].
        destruct (Nat.eqb_spec (opponent g0) (userId s)) as [E | E];
          simpl in Hr; [| discriminate].
        destruct (save _ _ _ _) as [[g1 db1] |] eqn:Hs; [| discriminate].
        injection Hr as _ <- <-.
        apply StoreFacts.save_Some in Hs as [Hg1 ->].
        rewrite StoreFacts.preSave_not_pending in Hg1
          by (simpl; discriminate).
        exists g1. split.
        * rewrite StoreFacts.findById_upsert. subst g1. simpl.
          rewrite (StoreFacts.findById_id _ _ _ Hf).
          now rewrite Nat.eqb_refl.
        * subst g1. now right.
      - split; [reflexivity |]. intros G HG. now apply Hmove.
      - split; [reflexivity |]. intros G HG.
        destruct (Hinv G HG) as (g & Hg & Hp).
        destruct (Flow.createGame_cases enforce rnd now users db who body)
          as [(c & m & ->) | (g' & -> & Hrest)]; simpl.
        + eauto.
        + exists g. split; [| assumption].
          now apply Flow.findById_app_old. }
    destruct (sessionStep enforce (db, s) e) as [db1 s1].
    cbn [fst snd] in Hstep. destruct Hstep as [Hu Hinv1].
    rewrite <- Hu in Hinv1.
    destruct (IH db1 s1 Hinv1) as [Hu' Hfin].
    split; [congruence |]. intros G HG. rewrite <- Hu. now apply Hfin.
Qed.

(** X20.  Chat and typing notifications are relayed only into a game the
    sender takes part in: whatever a socket and everybody else did since
    the socket connected ('join-game', 'leave-game',
    'respond-to-invitation', any operation on the collection, games being
    created), if the handlers relay a message of that socket to the room
    of a game, that game is in the collection and the socket's user is
    its creator or its opponent. *)
Theorem relay_only_into_own_game :
  forall (enforce : bool) (db0 : Store) (u : ObjectId)
         (es : list SessionEvent) (G : nat),
    let st := sessionRun enforce (db0, mkSocket u None) es in
    relays (snd st) G = true ->
    exists g, findById (fst st) G = Some g /\ isParticipant g u.
Proof.
  intros enforce db0 u es G st Hrel.
  destruct (session_invariant enforce es db0 (mkSocket u None)) as [_ Hinv].
  { intros G' HG'. discriminate HG'. }
  fold st in Hinv. unfold relays in Hrel.
  destruct (currentGameId (snd st)) as [c |] eqn:Hc; [| discriminate].
  apply Nat.eqb_eq in Hrel. subst c. now apply Hinv.
Qed.

Lemma relay_only_into_own_game_witness :
  exists g,
    findById (fst (sessionRun true (([Scenario.pendingGame] : Store),
                                    mkSocket 2%nat None)
                              [EvJoinGame 100; EvLeaveGame 100;
                               EvRespond 10 100 true;
                               EvOperation 20 (Lifecycle.CallNumberRest
                                                 1%nat 100 (PNumber 7))]))
             100 = Some g /\
    isParticipant g 2%nat.
Proof.
  apply (relay_only_into_own_game true [Scenario.pendingGame] 2%nat
           [EvJoinGame 100; EvLeaveGame 100; EvRespond 10 100 true;
            EvOperation 20 (Lifecycle.CallNumberRest 1%nat 100 (PNumber 7))]
           100%nat).
  reflexivity.
Defined.

End GatewayFacts.
